(** * LightGunXR: the aim-to-screen projection and the calibration loop

    A shallow embedding of the latest revision of [lightgunxr.c], the one
    that projects through two angles and a depth plane and writes to
    uinput: the function [pose_to_pointer] and the body of the polling loop
    of [main], from the declaration of [state] to the end of [while (run)].
    The set-up of the OpenXR session and of the uinput device before the
    loop, and the clean-up after it, are not modelled; [usleep] has no
    counterpart.

    The C type [float] is IEEE 754 binary32 and [double] is binary64; both
    are modelled by the Standard Library's [spec_float], whose operations
    are parameterised by the precision and the exponent bound and round to
    nearest, ties to even.  Expressions are evaluated in the type C gives
    them (FLT_EVAL_METHOD 0, no product fused with a sum): a [float]
    expression in binary32, an expression with a [double] operand in
    binary64, with the conversions written out.  The theorems hold for every [spec_float], the values of
    binary32 among them. *)

From Stdlib Require Import ZArith List Bool Lia.
From Stdlib Require Import SpecFloat.
Import ListNotations.
Local Open Scope Z_scope.

(** ** Floating-point formats *)

Definition float := spec_float.
Definition double := spec_float.

(** Conversion of a value to the format [(prec, emax)]: exact when the
    value is representable there ([float] to [double]), rounded otherwise
    ([double] to [float]). *)
Definition SFconvert (prec emax : Z) (x : spec_float) : spec_float :=
  match x with
  | S754_finite s m e => binary_round prec emax s m e
  | _ => x
  end.

Definition is_nan (x : spec_float) : bool :=
  match x with S754_nan => true | _ => false end.

Definition INT_MIN : Z := - 2 ^ 31.
Definition INT_MAX : Z := 2 ^ 31 - 1.

(** The integer part of a finite value, rounded toward zero. *)
Definition SFtrunc (x : spec_float) : option Z :=
  match x with
  | S754_zero _ => Some 0
  | S754_finite s m e => Some (cond_Zopp s (Z.shiftl (Zpos m) e))
  | _ => None
  end.

Module F32.
Definition prec : Z := 24.
Definition emax : Z := 128.
Definition add : float -> float -> float := SFadd prec emax.
Definition sub : float -> float -> float := SFsub prec emax.
Definition mul : float -> float -> float := SFmul prec emax.
Definition div : float -> float -> float := SFdiv prec emax.
Definition sqrt : float -> float := SFsqrt prec emax.
Definition abs : float -> float := SFabs.
Definition ltb : float -> float -> bool := SFltb.
Definition leb : float -> float -> bool := SFleb.
Definition eqb : float -> float -> bool := SFeqb.
(** C's [a > b] and [a != b]. *)
Definition gtb (a b : float) : bool := SFltb b a.
Definition neb (a b : float) : bool := negb (SFeqb a b).
(** An [int] operand converted to [float]. *)
Definition of_int (n : Z) : float := binary_normalize prec emax n 0 false.
(** [m * 2^e] as a [float]. *)
Definition of_bits (m e : Z) : float := binary_normalize prec emax m e false.
Definition valid (x : float) : bool := valid_binary prec emax x.
(** The cast [(int) x]: the fraction is discarded.  ISO C leaves the cast
    of a NaN, an infinity or a value outside [int] undefined; x86-64, the
    platform of uinput builds, yields [INT_MIN] there (cvttss2si), and so
    does this model.  No theorem below depends on that value. *)
Definition to_int (x : float) : Z :=
  match SFtrunc x with
  | Some k => if (INT_MIN <=? k) && (k <=? INT_MAX) then k else INT_MIN
  | None => INT_MIN
  end.
End F32.

Module F64.
Definition prec : Z := 53.
Definition emax : Z := 1024.
Definition add : double -> double -> double := SFadd prec emax.
Definition sub : double -> double -> double := SFsub prec emax.
Definition mul : double -> double -> double := SFmul prec emax.
Definition div : double -> double -> double := SFdiv prec emax.
Definition sqrt : double -> double := SFsqrt prec emax.
Definition of_int (n : Z) : double := binary_normalize prec emax n 0 false.
Definition of_bits (m e : Z) : double := binary_normalize prec emax m e false.
Definition of_float : float -> double := SFconvert prec emax.
Definition to_float : double -> float := SFconvert F32.prec F32.emax.
End F64.

Declare Scope f32_scope.
Delimit Scope f32_scope with f32.
Infix "+" := F32.add : f32_scope.
Infix "-" := F32.sub : f32_scope.
Infix "*" := F32.mul : f32_scope.
Infix "/" := F32.div : f32_scope.
Infix "<?" := F32.ltb : f32_scope.
Infix ">?" := F32.gtb : f32_scope.
Infix "!=?" := F32.neb (at level 70) : f32_scope.

Definition NaN : float := S754_nan.
Definition f0 : float := S754_zero false.
Definition f1 : float := Eval vm_compute in F32.of_int 1.
Definition f2 : float := Eval vm_compute in F32.of_int 2.

(** ** The OpenXR pose *)

Record XrVector3f := { v_x : float; v_y : float; v_z : float }.
Record XrQuaternionf := { q_x : float; q_y : float; q_z : float; q_w : float }.
Record XrPosef := { orientation : XrQuaternionf; position : XrVector3f }.

(** ** libm

    [asinf], [atan2f], [cosf] and [powf] come from the C library, not from
    this program: the model takes them as an interface, and the general
    theorems about the program hold for every implementation of it; the
    examples run on the reference implementation given further down.
    [fabsf] and [sqrtf] are exact, respectively correctly rounded, in
    IEEE 754. *)
Class Libm := {
  asinf : float -> float;
  atan2f : float -> float -> float;
  cosf : float -> float;
  powf : float -> float -> float
}.

Definition fabsf : float -> float := F32.abs.
Definition sqrtf : float -> float := F32.sqrt.

(** [M_PI], 3.14159265358979323846 as a [double] (0x400921FB54442D18). *)
Definition M_PI : double := S754_finite false 7074237752028440 (-51).

(** The double literals [2.0] and [-2.0]. *)
Definition d_two : double := Eval vm_compute in F64.of_int 2.
Definition d_minus_two : double := Eval vm_compute in F64.of_int (-2).

(** ** pose_to_pointer *)

Section Projection.
Context {libm : Libm}.
Local Open Scope f32_scope.

(** [(a > 0) - (a < 0)], an [int]. *)
Definition sign_of (a : float) : Z :=
  Z.sub (Z.b2z (a >? f0)) (Z.b2z (a <? f0)).

(** [poseAngleX]: the argument of [asinf] is a [double] product, converted
    to [float] by the call. *)
Definition pose_angle_x (q : XrQuaternionf) : float :=
  asinf (F64.to_float (F64.mul d_minus_two
    (F64.of_float (q_x q * q_z q - q_w q * q_y q)))).

(** [poseAngleY], as [atan2f] returns it and after the half-turn the
    source applies to it ("starts pitch at +/- 180, flip it around");
    [poseAngleY -= M_PI] and [+= M_PI] are [double] operations. *)
Definition pose_angle_y_raw (q : XrQuaternionf) : float :=
  atan2f
    (F64.to_float (F64.mul d_two (F64.of_float (q_y q * q_z q + q_w q * q_x q))))
    (((q_w q * q_w q - q_x q * q_x q) - q_y q * q_y q) + q_z q * q_z q).

Definition flip (a : float) : float :=
  if a >? f0
  then F64.to_float (F64.sub (F64.of_float a) M_PI)
  else F64.to_float (F64.add (F64.of_float a) M_PI).

Definition pose_angle_y (q : XrQuaternionf) : float := flip (pose_angle_y_raw q).

(** The argument of [sqrtf]: side B squared of the right triangle with
    side A [normalDistance] and angle [a]. *)
Definition radicand (normalDistance a : float) : float :=
  powf (normalDistance / cosf a) f2 - normalDistance * normalDistance.

(** The signed lateral offset: [sqrtf (...)] then
    [off *= (a > 0) - (a < 0)]. *)
Definition offset (normalDistance a : float) : float :=
  sqrtf (radicand normalDistance a) * F32.of_int (sign_of a).

(** The candidate [(resultX, resultY)] of [pose_to_pointer], everything
    the function computes before its two [if]s. *)
Definition pose_result (pose : XrPosef) (x0 x1 y0 y1 depth : float)
  : float * float :=
  let normalDistance := fabsf (v_z (position pose) - depth) in
  let poseAngleX := pose_angle_x (orientation pose) in
  let poseAngleY := pose_angle_y (orientation pose) in
  let offX := offset normalDistance poseAngleX in
  let offY := offset normalDistance poseAngleY in
  let resultX := ((v_x (position pose) - offX) - x0) / (x1 - x0) in
  let resultY := ((v_y (position pose) + offY) - y0) / (y1 - y0) in
  (resultX, resultY).

(** The range test of the first [if]. *)
Definition off_screen (r : float * float) : bool :=
  (fst r <? f0) || (fst r >? f1) || (snd r <? f0) || (snd r >? f1).

(** The test of the second [if]: [(resultX != *mouseX) || (resultY != *mouseY)]. *)
Definition differs (r mouse : float * float) : bool :=
  (fst r !=? fst mouse) || (snd r !=? snd mouse).

(** [pose_to_pointer]: the returned [int] and the contents of
    [*mouseX], [*mouseY] after the call. *)
Definition pose_to_pointer (pose : XrPosef) (x0 x1 y0 y1 depth : float)
    (mouse : float * float) : Z * (float * float) :=
  let r := pose_result pose x0 x1 y0 y1 depth in
  if off_screen r then (0, mouse)
  else if differs r mouse then (1, r)
  else (0, mouse).
End Projection.


(** ** The polling loop of [main] *)

(** The results of the OpenXR calls the loop tells apart: [XR_SUCCESS],
    the two qualified successes it handles, and everything else. *)
Inductive XrResult :=
| XR_SUCCESS
| XR_SESSION_LOSS_PENDING
| XR_SESSION_NOT_FOCUSED
| XR_OTHER (code : Z).

Definition is_success (r : XrResult) : bool :=
  match r with XR_SUCCESS => true | _ => false end.

(** The two fields of [XrActionStateBoolean] the loop reads. *)
Record XrActionStateBoolean := {
  currentState : bool;
  changedSinceLastSync : bool
}.

(** What one iteration obtains from the runtime: the result of
    [xrSyncActions] and, when it succeeded, of the five queries that follow
    it, with the located pose and the three button states. *)
Record sample := {
  sync_res : XrResult;
  time_res : XrResult;
  locate_res : XrResult;
  fire_res : XrResult;
  pedal_res : XrResult;
  pause_res : XrResult;
  aimState : XrPosef;
  fireState : XrActionStateBoolean;
  pedalState : XrActionStateBoolean;
  pauseState : XrActionStateBoolean
}.

(** [struct input_event], its time stamp left at zero. *)
Inductive ev_type := EV_SYN | EV_KEY | EV_ABS.
Inductive ev_code := SYN_REPORT | BTN_LEFT | KEY_Z | KEY_C | ABS_X | ABS_Y.
Record input_event := { ie_type : ev_type; ie_code : ev_code; ie_value : Z }.

(** The lines the loop prints on stdout. *)
Inductive button_name := Fire | Pedal | Pause.
Inductive xr_call :=
| xrSyncActions
| xrConvertTimespecTimeToTimeKHR
| xrLocateSpace
| xrGetActionStateBoolean.
Inductive message :=
| TopLeftIs (x y z : float)
| BottomRightIs (x y z : float)
| ButtonLine (b : button_name) (pressed : bool)
| PointerLine (x y : float)
| SessionLost
| CallFailed (name : xr_call) (res : XrResult).

Definition SCREEN_WIDTH : Z := 1920.
Definition SCREEN_HEIGHT : Z := 1080.

(** The anonymous enum of [main] and the variables the loop reads and
    writes. *)
Inductive phase := RECORDING_TOPLEFT | RECORDING_BOTTOMRIGHT | PLAYING.

Record loop_state := {
  state : phase;
  x0 : float; x1 : float; y0 : float; y1 : float; z : float;
  run : Z;
  sync : Z;
  mouseX : float; mouseY : float
}.

(** The state on entry to the loop.  [x0], [x1], [y0], [y1] and [z] are
    declared without initialiser: their contents are whatever [g] holds. *)
Definition initial (g : float * float * float * float * float) : loop_state :=
  let '(gx0, gx1, gy0, gy1, gz) := g in
  {| state := RECORDING_TOPLEFT;
     x0 := gx0; x1 := gx1; y0 := gy0; y1 := gy1; z := gz;
     run := 1; sync := 0;
     mouseX := F32.of_int 0; mouseY := F32.of_int 0 |}.

(** One iteration: [next] is the state at the end of the body, or [None]
    when [CHECK_ERROR] jumped to [cleanup]; [written] are the events written
    to the uinput descriptor, [printed] the lines printed, both in order. *)
Record step := {
  next : option loop_state;
  written : list input_event;
  printed : list message
}.

Definition stay (s : loop_state) : step :=
  {| next := Some s; written := []; printed := [] |}.

Definition fail_call (name : xr_call) (res : XrResult) : step :=
  {| next := None; written := []; printed := [CallFailed name res] |}.

(** [fireState.currentState && fireState.changedSinceLastSync] *)
Definition pressed_now (b : XrActionStateBoolean) : bool :=
  currentState b && changedSinceLastSync b.

(** The branch [state == RECORDING_TOPLEFT]. *)
Definition record_topleft (s : loop_state) (smp : sample) : step :=
  if pressed_now (fireState smp) then
    let p := position (aimState smp) in
    {| next := Some {| state := RECORDING_BOTTOMRIGHT;
                       x0 := v_x p; x1 := x1 s; y0 := v_y p; y1 := y1 s;
                       z := v_z p;
                       run := run s; sync := sync s;
                       mouseX := mouseX s; mouseY := mouseY s |};
       written := [];
       printed := [TopLeftIs (v_x p) (v_y p) (v_z p)] |}
  else stay s.

(** The branch [state == RECORDING_BOTTOMRIGHT]:
    [z = (z < aimState.pose.position.z) ? z : aimState.pose.position.z]. *)
Definition record_bottomright (s : loop_state) (smp : sample) : step :=
  if pressed_now (fireState smp) then
    let p := position (aimState smp) in
    let z' := if F32.ltb (z s) (v_z p) then z s else v_z p in
    {| next := Some {| state := PLAYING;
                       x0 := x0 s; x1 := v_x p; y0 := y0 s; y1 := v_y p;
                       z := z';
                       run := run s; sync := sync s;
                       mouseX := mouseX s; mouseY := mouseY s |};
       written := [];
       printed := [BottomRightIs (v_x p) (v_y p) z'] |}
  else stay s.

(** The events and the line of one button block:
    [if (b.changedSinceLastSync) { printf; write EV_KEY; sync = 1; }]. *)
Definition key_event (code : ev_code) (b : XrActionStateBoolean) : list input_event :=
  if changedSinceLastSync b
  then [{| ie_type := EV_KEY; ie_code := code; ie_value := Z.b2z (currentState b) |}]
  else [].

Definition key_line (name : button_name) (b : XrActionStateBoolean) : list message :=
  if changedSinceLastSync b then [ButtonLine name (currentState b)] else [].

(** The two [EV_ABS] events of the pointer block:
    [ie.value = (int) (mouseX * SCREEN_WIDTH)] and the same for Y. *)
Definition abs_events (mouse : float * float) : list input_event :=
  [ {| ie_type := EV_ABS; ie_code := ABS_X;
       ie_value := F32.to_int (F32.mul (fst mouse) (F32.of_int SCREEN_WIDTH)) |};
    {| ie_type := EV_ABS; ie_code := ABS_Y;
       ie_value := F32.to_int (F32.mul (snd mouse) (F32.of_int SCREEN_HEIGHT)) |} ].

Definition syn_event : input_event :=
  {| ie_type := EV_SYN; ie_code := SYN_REPORT; ie_value := 0 |}.

Section Loop.
Context {libm : Libm}.

(** The [else] branch, [state == PLAYING]. *)
Definition playing (s : loop_state) (smp : sample) : step :=
  let fire := fireState smp in
  let pedal := pedalState smp in
  let pause := pauseState smp in
  (* Quit *)
  let run' := if currentState fire && currentState pause then 0 else run s in
  (* Buttons *)
  let sync1 := if changedSinceLastSync fire then 1 else sync s in
  let sync2 := if changedSinceLastSync pedal then 1 else sync1 in
  let sync3 := if changedSinceLastSync pause then 1 else sync2 in
  let keys := key_event BTN_LEFT fire ++ key_event KEY_Z pedal ++ key_event KEY_C pause in
  let lines := key_line Fire fire ++ key_line Pedal pedal ++ key_line Pause pause in
  (* Pointer *)
  let '(moved, mouse') :=
    pose_to_pointer (aimState smp) (x0 s) (x1 s) (y0 s) (y1 s) (z s)
                    (mouseX s, mouseY s) in
  let updated := negb (moved =? 0) in
  let sync4 := if updated then 1 else sync3 in
  let pointer := if updated then abs_events mouse' else [] in
  let pointer_line :=
    if updated
    then [PointerLine (F32.mul (fst mouse') (F32.of_int SCREEN_WIDTH))
                      (F32.mul (snd mouse') (F32.of_int SCREEN_HEIGHT))]
    else [] in
  (* if (sync) { write EV_SYN; sync = 0; } *)
  let flush := negb (sync4 =? 0) in
  {| next := Some {| state := state s;
                     x0 := x0 s; x1 := x1 s; y0 := y0 s; y1 := y1 s; z := z s;
                     run := run';
                     sync := if flush then 0 else sync4;
                     mouseX := fst mouse'; mouseY := snd mouse' |};
     written := keys ++ pointer ++ (if flush then [syn_event] else []);
     printed := lines ++ pointer_line |}.

(** The body of [if (res == XR_SUCCESS)] after the queries succeeded. *)
Definition dispatch (s : loop_state) (smp : sample) : step :=
  match state s with
  | RECORDING_TOPLEFT => record_topleft s smp
  | RECORDING_BOTTOMRIGHT => record_bottomright s smp
  | PLAYING => playing s smp
  end.

(** The body of [while (run)]. *)
Definition tick (s : loop_state) (smp : sample) : step :=
  match sync_res smp with
  | XR_SUCCESS =>
      if negb (is_success (time_res smp))
      then fail_call xrConvertTimespecTimeToTimeKHR (time_res smp)
      else if negb (is_success (locate_res smp))
      then fail_call xrLocateSpace (locate_res smp)
      else if negb (is_success (fire_res smp))
      then fail_call xrGetActionStateBoolean (fire_res smp)
      else if negb (is_success (pedal_res smp))
      then fail_call xrGetActionStateBoolean (pedal_res smp)
      else if negb (is_success (pause_res smp))
      then fail_call xrGetActionStateBoolean (pause_res smp)
      else dispatch s smp
  | XR_SESSION_LOSS_PENDING =>
      {| next := Some {| state := state s;
                         x0 := x0 s; x1 := x1 s; y0 := y0 s; y1 := y1 s; z := z s;
                         run := 0; sync := sync s;
                         mouseX := mouseX s; mouseY := mouseY s |};
         written := []; printed := [SessionLost] |}
  | XR_SESSION_NOT_FOCUSED => stay s
  | XR_OTHER _ => fail_call xrSyncActions (sync_res smp)
  end.

(** [while (run) { ... }] against the samples the runtime delivers: the
    states at the head of the loop, the first being the state on entry.  The
    trace ends when [run] is 0, when an iteration jumps to [cleanup], or
    with the samples. *)
Fixpoint loop_trace (samples : list sample) (s : loop_state) : list loop_state :=
  s :: (if run s =? 0 then []
        else match samples with
             | [] => []
             | smp :: rest =>
                 match next (tick s smp) with
                 | Some s' => loop_trace rest s'
                 | None => []
                 end
             end).

End Loop.


(** ** A reference libm

    An implementation of the interface, for running the model on concrete
    inputs: each function is evaluated in binary64 by a truncated series and
    rounded once to binary32.  It returns the values ISO C fixes at the
    special points (signed zeros, infinities, NaN, [cos 0 = 1],
    [atan2 (0, 1) = 0]), rounds a square correctly, and is accurate to about
    1e-15 absolute elsewhere.  [powf] is implemented for integral exponents
    only, the program passing none but 2; it is a NaN otherwise. *)
Module LibmRef.

Definition d0 : double := S754_zero false.
Definition d1 : double := Eval vm_compute in F64.of_int 1.
Definition d_half : double := Eval vm_compute in F64.of_bits 1 (-1).
Definition d_two_pi : double := Eval vm_compute in F64.mul M_PI d_two.
Definition d_half_pi : double := Eval vm_compute in F64.mul M_PI d_half.
Definition d_quarter_pi : double := Eval vm_compute in F64.mul d_half_pi d_half.

Definition sign_bit (x : spec_float) : bool :=
  match x with
  | S754_zero s | S754_infinity s | S754_finite s _ _ => s
  | S754_nan => false
  end.

Definition with_sign (s : bool) (x : spec_float) : spec_float :=
  if s then SFopp (SFabs x) else SFabs x.

(** The integer nearest to a finite [x] (half away from zero). *)
Definition nearest (x : double) : Z :=
  match SFtrunc (F64.add x (with_sign (sign_bit x) d_half)) with
  | Some k => k
  | None => 0
  end.

(** [acc + sum_{j = k+1 .. k+n} (-1)^j r^(2j) / (2j)!], given the term of
    index [k]. *)
Fixpoint cos_terms (n : nat) (k : Z) (t r2 acc : double) : double :=
  match n with
  | O => acc
  | S n' =>
      let t' := F64.div (F64.mul (SFopp t) r2)
                        (F64.of_int ((2 * k + 1) * (2 * k + 2))) in
      cos_terms n' (k + 1) t' r2 (F64.add acc t')
  end.

Definition cos (x : double) : double :=
  match x with
  | S754_nan | S754_infinity _ => S754_nan
  | S754_zero _ => d1
  | S754_finite _ _ _ =>
      let k := nearest (F64.div x d_two_pi) in
      let r := F64.sub x (F64.mul (F64.of_int k) d_two_pi) in
      cos_terms 18 0 d1 (F64.mul r r) d1
  end.

(** [tan (a / 2)] from [t = tan a]. *)
Definition half_angle (t : double) : double :=
  F64.div t (F64.add d1 (F64.sqrt (F64.add d1 (F64.mul t t)))).

(** [acc + sum_{j = k+1 .. k+n} (-1)^j u^(2j+1) / (2j+1)], given
    [p = (-1)^k u^(2k+1)]. *)
Fixpoint atan_terms (n : nat) (k : Z) (p u2 acc : double) : double :=
  match n with
  | O => acc
  | S n' =>
      let p' := SFopp (F64.mul p u2) in
      atan_terms n' (k + 1) p' u2
                 (F64.add acc (F64.div p' (F64.of_int (2 * (k + 1) + 1))))
  end.

(** The arc tangent of a finite [t >= 0]. *)
Definition atan (t : double) : double :=
  let u := half_angle (half_angle (half_angle t)) in
  F64.mul (F64.of_int 8) (atan_terms 16 0 u (F64.mul u u) u).

Definition atan2 (y x : double) : double :=
  let s := sign_bit y in
  match y, x with
  | S754_nan, _ | _, S754_nan => S754_nan
  | S754_zero _, S754_zero sx => with_sign s (if sx then M_PI else d0)
  | S754_zero _, S754_infinity sx => with_sign s (if sx then M_PI else d0)
  | S754_zero _, S754_finite sx _ _ => with_sign s (if sx then M_PI else d0)
  | S754_infinity _, S754_infinity sx =>
      with_sign s (if sx then F64.sub M_PI d_quarter_pi else d_quarter_pi)
  | S754_infinity _, _ => with_sign s d_half_pi
  | S754_finite _ _ _, S754_zero _ => with_sign s d_half_pi
  | S754_finite _ _ _, S754_infinity sx => with_sign s (if sx then M_PI else d0)
  | S754_finite _ _ _, S754_finite sx _ _ =>
      let a := atan (F64.div (SFabs y) (SFabs x)) in
      with_sign s (if sx then F64.sub M_PI a else a)
  end.

Definition asin (x : double) : double :=
  match x with
  | S754_zero _ => x
  | S754_finite _ _ _ =>
      if SFltb d1 (SFabs x) then S754_nan
      else atan2 x (F64.sqrt (F64.mul (F64.sub d1 x) (F64.add d1 x)))
  | _ => S754_nan
  end.

(** The exponent [y] as an integer, when it is one. *)
Definition integral (y : spec_float) : option Z :=
  match y with
  | S754_zero _ => Some 0
  | S754_finite s m e =>
      if 0 <=? e then Some (cond_Zopp s (Z.shiftl (Zpos m) e))
      else if Z.land (Zpos m) (Z.ones (- e)) =? 0
           then Some (cond_Zopp s (Z.shiftl (Zpos m) e))
           else None
  | _ => None
  end.

Definition pow (x y : double) : double :=
  match integral y with
  | Some n =>
      let p := Z.iter (Z.abs n) (fun acc => F64.mul acc x) d1 in
      if n <? 0 then F64.div d1 p else p
  | None => S754_nan
  end.

End LibmRef.

#[export] Instance libm_ref : Libm := {|
  asinf x := F64.to_float (LibmRef.asin (F64.of_float x));
  atan2f y x := F64.to_float (LibmRef.atan2 (F64.of_float y) (F64.of_float x));
  cosf x := F64.to_float (LibmRef.cos (F64.of_float x));
  powf x y := F64.to_float (LibmRef.pow (F64.of_float x) (F64.of_float y))
|}.


(** A second implementation, for running the model where libm is less than
    exact: as [libm_ref], but with [powf] rounded down instead of to
    nearest, which keeps it within one ulp of the exact power. *)
Definition powf_down (x y : float) : float :=
  let exact := LibmRef.pow (F64.of_float x) (F64.of_float y) in
  let p := F64.to_float exact in
  if SFltb exact (F64.of_float p) then SFpred F32.prec F32.emax p else p.

Definition libm_down : Libm := {|
  asinf := asinf (Libm := libm_ref);
  atan2f := atan2f (Libm := libm_ref);
  cosf := cosf (Libm := libm_ref);
  powf := powf_down
|}.


(** ** Concrete poses, buttons and samples *)

(** The orientation (0, 0, 0, 1): [poseAngleX] is -0 and [poseAngleY],
    after the half-turn, pi, whose cosine rounds to -1; both offsets are
    then 0 and the candidate is the position itself, normalised. *)
Definition identity : XrQuaternionf :=
  {| q_x := f0; q_y := f0; q_z := f0; q_w := f1 |}.

(** w = x = 0.70710677f, a quarter turn about the x axis and a unit
    quaternion to within one ulp: [poseAngleY] is pi/2 as [atan2f] returns
    it and -1.5707963f after the half-turn, a ray parallel to the screen
    plane. *)
Definition quarter_turn : XrQuaternionf :=
  {| q_x := F32.of_bits 11863283 (-24); q_y := f0; q_z := f0;
     q_w := F32.of_bits 11863283 (-24) |}.

Definition pose_at (q : XrQuaternionf) (px py pz : float) : XrPosef :=
  {| orientation := q; position := {| v_x := px; v_y := py; v_z := pz |} |}.

Definition idle : XrActionStateBoolean :=
  {| currentState := false; changedSinceLastSync := false |}.
Definition press : XrActionStateBoolean :=
  {| currentState := true; changedSinceLastSync := true |}.
Definition held : XrActionStateBoolean :=
  {| currentState := true; changedSinceLastSync := false |}.
Definition release : XrActionStateBoolean :=
  {| currentState := false; changedSinceLastSync := true |}.

(** A sample in which every runtime call succeeded. *)
Definition sample_of (pose : XrPosef) (fire pedal pause : XrActionStateBoolean)
  : sample :=
  {| sync_res := XR_SUCCESS; time_res := XR_SUCCESS; locate_res := XR_SUCCESS;
     fire_res := XR_SUCCESS; pedal_res := XR_SUCCESS; pause_res := XR_SUCCESS;
     aimState := pose;
     fireState := fire; pedalState := pedal; pauseState := pause |}.

(** [xrSyncActions] and the five queries after it all returned
    [XR_SUCCESS]. *)
Definition all_succeeded (smp : sample) : bool :=
  is_success (sync_res smp) && is_success (time_res smp) &&
  is_success (locate_res smp) && is_success (fire_res smp) &&
  is_success (pedal_res smp) && is_success (pause_res smp).

Definition fm1 : float := Eval vm_compute in F32.of_int (-1).
Definition f5 : float := Eval vm_compute in F32.of_int 5.
Definition f_half : float := Eval vm_compute in F32.of_bits 1 (-1).

(** The corners of the scenario of the specification: (-1, 1, 5) and
    (1, -1, 5). *)
Definition corner1 : XrPosef := pose_at identity fm1 f1 f5.
Definition corner2 : XrPosef := pose_at identity f1 fm1 f5.

(** Whatever the five uninitialised variables hold on entry; here NaNs. *)
Definition garbage : float * float * float * float * float :=
  (NaN, NaN, NaN, NaN, NaN).

(** Press at the first corner, release, press at the second. *)
Definition calibrate (c1 c2 : XrPosef) : list sample :=
  [ sample_of c1 press idle idle; sample_of c1 release idle idle;
    sample_of c2 press idle idle ].


(** ** Notions the statements use *)

(** A normalised coordinate: [0 <= u <= 1]; a NaN is not one. *)
Definition in_unit (u : float) : bool := F32.leb f0 u && F32.leb u f1.

(** [d] is the minimum of [a] and [b]: one of the two and, when both are
    ordered (neither is a NaN), below both. *)
Definition is_min (d a b : float) : Prop :=
  (d = a \/ d = b) /\
  (is_nan a = false -> is_nan b = false ->
   F32.leb d a = true /\ F32.leb d b = true).

(** The specification's [round (u * width)]: the integer nearest to the
    exact product of the value of [u] and [w] (a half rounds away from
    zero); nothing for an infinity or a NaN. *)
Definition spec_round_scaled (u : float) (w : Z) : option Z :=
  match u with
  | S754_zero _ => Some 0
  | S754_finite s m e =>
      let n := Zpos m * w in
      Some (cond_Zopp s
              (if 0 <=? e then n * 2 ^ e
               else (2 * n + 2 ^ (- e)) / 2 ^ (1 - e)))
  | _ => None
  end.

Definition phase_eqb (p q : phase) : bool :=
  match p, q with
  | RECORDING_TOPLEFT, RECORDING_TOPLEFT
  | RECORDING_BOTTOMRIGHT, RECORDING_BOTTOMRIGHT
  | PLAYING, PLAYING => true
  | _, _ => false
  end.

Definition rank (p : phase) : nat :=
  match p with
  | RECORDING_TOPLEFT => 0
  | RECORDING_BOTTOMRIGHT => 1
  | PLAYING => 2
  end.

(** The calibration geometry. *)
Definition geometry (s : loop_state) : float * float * float * float * float :=
  (x0 s, y0 s, x1 s, y1 s, z s).

(** The samples that capture a corner in a recording phase: every call
    succeeded and fire went down. *)
Definition capturing (smp : sample) : bool :=
  all_succeeded smp && pressed_now (fireState smp).

(** What one iteration, given [smp], may do to the phase and the geometry:
    leave both alone; or capture a corner, on a sample that is [capturing],
    which advances the phase by one, writes the position of the pose into
    the geometry - x, y and z at the first corner; x, y and the lesser of
    the depth so far and z at the second - and leaves the other corner
    alone. *)
Inductive phase_step (smp : sample) (s s' : loop_state) : Prop :=
| no_capture :
    state s' = state s -> geometry s' = geometry s -> phase_step smp s s'
| capture_topleft :
    state s = RECORDING_TOPLEFT -> state s' = RECORDING_BOTTOMRIGHT ->
    capturing smp = true ->
    geometry s' = (v_x (position (aimState smp)), v_y (position (aimState smp)),
                   x1 s, y1 s,
                   v_z (position (aimState smp))) ->
    phase_step smp s s'
| capture_bottomright :
    state s = RECORDING_BOTTOMRIGHT -> state s' = PLAYING ->
    capturing smp = true ->
    geometry s' = (x0 s, y0 s,
                   v_x (position (aimState smp)), v_y (position (aimState smp)),
                   if F32.ltb (z s) (v_z (position (aimState smp)))
                   then z s else v_z (position (aimState smp))) ->
    phase_step smp s s'.

(** A trace against the samples it consumed: each state leads to the next
    as [phase_step] says for the sample between them. *)
Inductive phase_steps : list sample -> list loop_state -> Prop :=
| steps_end (samples : list sample) (s : loop_state) :
    phase_steps samples [s]
| steps_next (smp : sample) (samples : list sample) (s s' : loop_state)
             (tr : list loop_state) :
    phase_step smp s s' -> phase_steps samples (s' :: tr) ->
    phase_steps (smp :: samples) (s :: s' :: tr).

(** The geometry two captures leave, the first at [p1] and the second at
    [p2]. *)
Definition calibrated (p1 p2 : XrVector3f) : float * float * float * float * float :=
  (v_x p1, v_y p1, v_x p2, v_y p2,
   if F32.ltb (v_z p1) (v_z p2) then v_z p1 else v_z p2).

(** The corner captures along a trace: the places where the phase
    changes. *)
Fixpoint captures (tr : list loop_state) : nat :=
  match tr with
  | s :: (s' :: _) as rest =>
      ((if phase_eqb (state s) (state s') then 0 else 1) + captures rest)%nat
  | _ => 0%nat
  end.

Definition is_syn (e : input_event) : bool :=
  match ie_type e with EV_SYN => true | _ => false end.

Definition key (code : ev_code) (pressed : bool) : input_event :=
  {| ie_type := EV_KEY; ie_code := code; ie_value := Z.b2z pressed |}.

Definition abs_at (code : ev_code) (v : Z) : input_event :=
  {| ie_type := EV_ABS; ie_code := code; ie_value := v |}.

(** 2^127, a finite [float] whose square overflows. *)
Definition far : float := Eval vm_compute in F32.of_bits 1 127.

(** 0.100097179f (0x3dccffc0): its square is not a [float] and rounds
    up. *)
Definition z_near : float := Eval vm_compute in F32.of_bits 13434816 (-27).

(** 4095/4096: times 1920 it is 1919.53125. *)
Definition u_hi : float := Eval vm_compute in F32.of_bits 4095 (-12).

Definition unit_corner1 : XrPosef := pose_at identity f0 f0 f5.
Definition unit_corner2 : XrPosef := pose_at identity f1 f1 f5.

(** The state after the samples, when the loop is still running. *)
Definition state_after {libm : Libm} (samples : list sample) (s : loop_state)
  : loop_state :=
  last (loop_trace samples s) s.


(** ** The run of the loop: what it writes and how it ends *)

Section Run.
Context {libm : Libm}.

(** Everything written to uinput by [while (run) { ... }] against the
    samples, in order. *)
Fixpoint loop_written (samples : list sample) (s : loop_state) : list input_event :=
  if run s =? 0 then []
  else match samples with
       | [] => []
       | smp :: rest =>
           written (tick s smp) ++
           match next (tick s smp) with
           | Some s' => loop_written rest s'
           | None => []
           end
       end.

(** Everything printed by it. *)
Fixpoint loop_printed (samples : list sample) (s : loop_state) : list message :=
  if run s =? 0 then []
  else match samples with
       | [] => []
       | smp :: rest =>
           printed (tick s smp) ++
           match next (tick s smp) with
           | Some s' => loop_printed rest s'
           | None => []
           end
       end.

End Run.

(** How the loop is left: through its condition, [run] being 0; through
    the [goto cleanup] of [CHECK_ERROR]; or not at all within the samples. *)
Inductive loop_end := Finished | Jumped | Running.

Fixpoint loop_ends {libm : Libm} (samples : list sample) (s : loop_state) : loop_end :=
  if run s =? 0 then Finished
  else match samples with
       | [] => Running
       | smp :: rest =>
           match next (tick s smp) with
           | Some s' => loop_ends rest s'
           | None => Jumped
           end
       end.

(** The samples in which [xrSyncActions] did not answer
    [XR_SESSION_NOT_FOCUSED]. *)
Definition focused (smp : sample) : bool :=
  match sync_res smp with XR_SESSION_NOT_FOCUSED => false | _ => true end.

(** The quit chord: both levels down. *)
Definition quit_chord (smp : sample) : bool :=
  currentState (fireState smp) && currentState (pauseState smp).

(** A sample with another orientation of the device. *)
Definition with_orientation (q : XrQuaternionf) (smp : sample) : sample :=
  {| sync_res := sync_res smp; time_res := time_res smp;
     locate_res := locate_res smp; fire_res := fire_res smp;
     pedal_res := pedal_res smp; pause_res := pause_res smp;
     aimState := {| orientation := q; position := position (aimState smp) |};
     fireState := fireState smp; pedalState := pedalState smp;
     pauseState := pauseState smp |}.

(** The quaternion with every component negated: the same rotation. *)
Definition q_opp (q : XrQuaternionf) : XrQuaternionf :=
  {| q_x := SFopp (q_x q); q_y := SFopp (q_y q);
     q_z := SFopp (q_z q); q_w := SFopp (q_w q) |}.

Definition is_finite (x : spec_float) : bool :=
  match x with S754_zero _ | S754_finite _ _ _ => true | _ => false end.

(** [s] with [run] put to 0, as [XR_SESSION_LOSS_PENDING] leaves it. *)
Definition stopped (s : loop_state) : loop_state :=
  {| state := state s;
     x0 := x0 s; x1 := x1 s; y0 := y0 s; y1 := y1 s; z := z s;
     run := 0; sync := sync s;
     mouseX := mouseX s; mouseY := mouseY s |}.

(** The events the device was set up for: a key event of one of the three
    codes the loop uses, with value 0 or 1; a position on one of the two
    axes; the report barrier with value 0. *)
Definition well_formed (e : input_event) : bool :=
  match ie_type e, ie_code e with
  | EV_KEY, (BTN_LEFT | KEY_Z | KEY_C) => (ie_value e =? 0) || (ie_value e =? 1)
  | EV_ABS, (ABS_X | ABS_Y) => true
  | EV_SYN, SYN_REPORT => ie_value e =? 0
  | _, _ => false
  end.


(** ** [main], from the opening of uinput to its return

    The program around the loop, in the revision that writes to uinput.
    The runtime and the kernel are an oracle: [world] holds what each call
    returns, in the order of the calls.  The calls to the OpenXR runtime
    appear through their results only; the requests made of uinput and the
    lines printed are recorded. *)

(** The key bits enabled at set-up: those of the three codes the loop
    writes, and KEY_X. *)
Inductive key_bit := bit (c : ev_code) | KEY_X.

Inductive uinput_op :=
| UI_SET_EVBIT (t : ev_type)
| UI_SET_KEYBIT (k : key_bit)
| UI_SET_ABSBIT (c : ev_code)
| UI_DEV_SETUP (vendor product : Z)
| UI_ABS_SETUP (c : ev_code) (minimum maximum : Z)
| UI_DEV_CREATE
| write (e : input_event)
| UI_DEV_DESTROY
| close.

Inductive xr_action := A_aim | A_fire | A_pedal | A_pause | A_kickback.

(** The calls checked by [CHECK_ERROR] before the loop; [xrStringToPath i]
    is the call for the [i]-th of the seven paths. *)
Inductive setup_call :=
| xrGetInstanceProcAddr
| xrCreateActionSet
| xrCreateAction (a : xr_action)
| xrStringToPath (i : nat)
| xrSuggestInteractionProfileBindings
| xrGetSystem
| xrCreateSession
| xrAttachSessionActionSets
| xrCreateReferenceSpace
| xrCreateActionSpace
| xrPollEvent
| xrBeginSession.

Inductive line :=
| UinputNotOpened
| InstanceFailed (res : XrResult)
| SetupFailed (c : setup_call) (res : XrResult)
| Started
| InLoop (m : message).

Record world := {
  uinput_fd : Z;                       (* what [open] returned *)
  errno_at_return : Z;                 (* [errno] when [return errno] reads it *)
  instance_res : XrResult;             (* xrCreateInstance *)
  setup_res : setup_call -> XrResult;  (* each checked call but xrPollEvent *)
  polled : list (XrResult * bool);     (* each xrPollEvent: its result, and
                                          whether the event is
                                          SESSION_STATE_CHANGED *)
  uninitialised : float * float * float * float * float;
  loop_samples : list sample
}.

Record outcome := {
  returned : option Z;       (* [None]: [main] has not returned when the
                                events or the samples end *)
  uinput : list uinput_op;
  stdout : list line
}.

(** The requests between [open] and [xrCreateInstance]. *)
Definition uinput_set_up : list uinput_op :=
  [ UI_SET_EVBIT EV_KEY;
    UI_SET_KEYBIT (bit KEY_Z); UI_SET_KEYBIT KEY_X;
    UI_SET_KEYBIT (bit KEY_C); UI_SET_KEYBIT (bit BTN_LEFT);
    UI_SET_EVBIT EV_ABS; UI_SET_ABSBIT ABS_X; UI_SET_ABSBIT ABS_Y;
    UI_SET_EVBIT EV_SYN;
    UI_DEV_SETUP 1056 26985;
    UI_ABS_SETUP ABS_X 0 SCREEN_WIDTH; UI_ABS_SETUP ABS_Y 0 SCREEN_HEIGHT;
    UI_DEV_CREATE ].

(** The requests after the label [cleanup]. *)
Definition clean_up : list uinput_op := [UI_DEV_DESTROY; close].

(** The checked calls up to the wait for the session, each with the value
    [returnCode] has when it is made. *)
Definition set_up_calls : list (Z * setup_call) :=
  [ (-2, xrGetInstanceProcAddr);
    (-3, xrCreateActionSet);
    (-3, xrCreateAction A_aim); (-3, xrCreateAction A_fire);
    (-3, xrCreateAction A_pedal); (-3, xrCreateAction A_pause);
    (-3, xrCreateAction A_kickback);
    (-4, xrStringToPath 0); (-4, xrStringToPath 1); (-4, xrStringToPath 2);
    (-4, xrStringToPath 3); (-4, xrStringToPath 4); (-4, xrStringToPath 5);
    (-4, xrStringToPath 6);
    (-4, xrSuggestInteractionProfileBindings);
    (-5, xrGetSystem); (-5, xrCreateSession); (-5, xrAttachSessionActionSets);
    (-6, xrCreateReferenceSpace); (-6, xrCreateActionSpace) ].

(** The first of the calls that does not return [XR_SUCCESS]. *)
Fixpoint first_failure (res : setup_call -> XrResult)
    (calls : list (Z * setup_call)) : option (Z * setup_call) :=
  match calls with
  | [] => None
  | (code, c) :: rest =>
      if is_success (res c) then first_failure res rest else Some (code, c)
  end.

(** [do { res = xrPollEvent (...); CHECK_ERROR } while (type != ...)]. *)
Inductive poll_end := SessionChanged | PollFailed (res : XrResult) | StillPolling.

Fixpoint wait_for_session (evs : list (XrResult * bool)) : poll_end :=
  match evs with
  | [] => StillPolling
  | (res, changed) :: rest =>
      if is_success res
      then if changed then SessionChanged else wait_for_session rest
      else PollFailed res
  end.

(** What [main] does once the instance exists: the checked calls, the
    loop, the clean-up. *)
Definition after_instance {libm : Libm} (w : world) : outcome :=
  match first_failure (setup_res w) set_up_calls with
  | Some (code, c) =>
      {| returned := Some code;
         uinput := uinput_set_up ++ clean_up;
         stdout := [SetupFailed c (setup_res w c)] |}
  | None =>
      match wait_for_session (polled w) with
      | StillPolling =>
          {| returned := None; uinput := uinput_set_up; stdout := [] |}
      | PollFailed res =>
          {| returned := Some (-7);
             uinput := uinput_set_up ++ clean_up;
             stdout := [SetupFailed xrPollEvent res] |}
      | SessionChanged =>
          if negb (is_success (setup_res w xrBeginSession))
          then {| returned := Some (-7);
                  uinput := uinput_set_up ++ clean_up;
                  stdout := [SetupFailed xrBeginSession
                                         (setup_res w xrBeginSession)] |}
          else
            let s := initial (uninitialised w) in
            let writes := map write (loop_written (loop_samples w) s) in
            let lines := Started :: map InLoop (loop_printed (loop_samples w) s) in
            match loop_ends (loop_samples w) s with
            | Finished =>
                {| returned := Some 0;
                   uinput := uinput_set_up ++ writes ++ clean_up;
                   stdout := lines |}
            | Jumped =>
                {| returned := Some (-8);
                   uinput := uinput_set_up ++ writes ++ clean_up;
                   stdout := lines |}
            | Running =>
                {| returned := None;
                   uinput := uinput_set_up ++ writes;
                   stdout := lines |}
            end
      end
  end.

Definition main {libm : Libm} (w : world) : outcome :=
  if uinput_fd w =? -1
  then {| returned := Some (errno_at_return w); uinput := [];
          stdout := [UinputNotOpened] |}
  else if negb (is_success (instance_res w))
  then {| returned := Some (-1); uinput := uinput_set_up;
          stdout := [InstanceFailed (instance_res w)] |}
  else after_instance w.

(** Whether the set-up enabled the type and the code of an event. *)
Definition enabled (setup : list uinput_op) (e : input_event) : Prop :=
  In (UI_SET_EVBIT (ie_type e)) setup /\
  match ie_type e with
  | EV_KEY => In (UI_SET_KEYBIT (bit (ie_code e))) setup
  | EV_ABS => In (UI_SET_ABSBIT (ie_code e)) setup
  | EV_SYN => ie_code e = SYN_REPORT
  end.

(** A world in which every call before the loop succeeds and the session
    is announced by the second event. *)
Definition fair_world (smps : list sample) : world :=
  {| uinput_fd := 3; errno_at_return := 0;
     instance_res := XR_SUCCESS;
     setup_res := fun _ => XR_SUCCESS;
     polled := [(XR_SUCCESS, false); (XR_SUCCESS, true)];
     uninitialised := garbage;
     loop_samples := smps |}.

(** A world in which xrCreateInstance fails. *)
Definition no_runtime : world :=
  {| uinput_fd := 3; errno_at_return := 0;
     instance_res := XR_OTHER (-51);
     setup_res := fun _ => XR_SUCCESS;
     polled := [];
     uninitialised := garbage;
     loop_samples := [] |}.


(** ** The four-corner revision

    [main] as it was before the projection was written: the screen is kept
    as four corners, [pose_to_pointer] computes a direction and stops
    there, and the loop prints its lines without a uinput device. *)
Module Quad.
Local Open Scope f32_scope.

(** Vector3.Transform (Quaternion), applied to the position of the pose. *)
Definition direction (pose : XrPosef) : XrVector3f :=
  let q := orientation pose in
  let p := position pose in
  let x := f2 * ((q_y q * v_z p) - (q_z q * v_y p)) in
  let y := f2 * ((q_z q * v_x p) - (q_x q * v_z p)) in
  let z := f2 * ((q_x q * v_y p) - (q_y q * v_x p)) in
  {| v_x := v_x p + (x * q_w q) + (q_y q * z) - (q_z q * y);
     v_y := v_y p + (y * q_w q) + (q_z q * x) - (q_x q * z);
     v_z := v_z p + (z * q_w q) + (q_x q * y) - (q_y q * x) |}.

(** [pose_to_pointer]: [direction] is computed and not used; the result
    is [0.0f, 0.0f]. *)
Definition pose_to_pointer (pose : XrPosef)
    (topleft topright bottomleft bottomright : XrVector3f)
    (mouse : float * float) : Z * (float * float) :=
  let r := (f0, f0) in
  if differs r mouse then (1, r) else (0, mouse).

Record loop_state := {
  state : phase;
  topleft : XrVector3f; bottomright : XrVector3f;
  topright : XrVector3f; bottomleft : XrVector3f;
  run : Z;
  mouseX : float; mouseY : float
}.

(** The state on entry to the loop; the four corners have no initialiser. *)
Definition initial (g : XrVector3f * XrVector3f * XrVector3f * XrVector3f) : loop_state :=
  let '(gtl, gbr, gtr, gbl) := g in
  {| state := RECORDING_TOPLEFT;
     topleft := gtl; bottomright := gbr; topright := gtr; bottomleft := gbl;
     run := 1;
     mouseX := F32.of_int 0; mouseY := F32.of_int 0 |}.

Record step := { next : option loop_state; printed : list message }.

Definition stay (s : loop_state) : step := {| next := Some s; printed := [] |}.

Definition fail_call (name : xr_call) (res : XrResult) : step :=
  {| next := None; printed := [CallFailed name res] |}.

Definition record_topleft (s : loop_state) (smp : sample) : step :=
  if pressed_now (fireState smp) then
    let p := position (aimState smp) in
    {| next := Some {| state := RECORDING_BOTTOMRIGHT;
                       topleft := p; bottomright := bottomright s;
                       topright := topright s; bottomleft := bottomleft s;
                       run := run s;
                       mouseX := mouseX s; mouseY := mouseY s |};
       printed := [TopLeftIs (v_x p) (v_y p) (v_z p)] |}
  else stay s.

(** [bottomleft = topleft; bottomleft.y = bottomright.y;
     topright = bottomright; topright.y = topleft.y;] *)
Definition record_bottomright (s : loop_state) (smp : sample) : step :=
  if pressed_now (fireState smp) then
    let p := position (aimState smp) in
    let tl := topleft s in
    {| next := Some {| state := PLAYING;
                       topleft := tl; bottomright := p;
                       topright := {| v_x := v_x p; v_y := v_y tl; v_z := v_z p |};
                       bottomleft := {| v_x := v_x tl; v_y := v_y p; v_z := v_z tl |};
                       run := run s;
                       mouseX := mouseX s; mouseY := mouseY s |};
       printed := [BottomRightIs (v_x p) (v_y p) (v_z p)] |}
  else stay s.

Definition playing (s : loop_state) (smp : sample) : step :=
  let fire := fireState smp in
  let pedal := pedalState smp in
  let pause := pauseState smp in
  let run' := if currentState fire && currentState pause then 0 else run s in
  let lines := key_line Fire fire ++ key_line Pedal pedal ++ key_line Pause pause in
  let '(moved, mouse') :=
    pose_to_pointer (aimState smp) (topleft s) (topright s) (bottomleft s)
                    (bottomright s) (mouseX s, mouseY s) in
  let pointer_line :=
    if negb (moved =? 0) then [PointerLine (fst mouse') (snd mouse')] else [] in
  {| next := Some {| state := state s;
                     topleft := topleft s; bottomright := bottomright s;
                     topright := topright s; bottomleft := bottomleft s;
                     run := run';
                     mouseX := fst mouse'; mouseY := snd mouse' |};
     printed := lines ++ pointer_line |}.

Definition dispatch (s : loop_state) (smp : sample) : step :=
  match state s with
  | RECORDING_TOPLEFT => record_topleft s smp
  | RECORDING_BOTTOMRIGHT => record_bottomright s smp
  | PLAYING => playing s smp
  end.

(** The body of [while (run)]. *)
Definition tick (s : loop_state) (smp : sample) : step :=
  match sync_res smp with
  | XR_SUCCESS =>
      if negb (is_success (time_res smp))
      then fail_call xrConvertTimespecTimeToTimeKHR (time_res smp)
      else if negb (is_success (locate_res smp))
      then fail_call xrLocateSpace (locate_res smp)
      else if negb (is_success (fire_res smp))
      then fail_call xrGetActionStateBoolean (fire_res smp)
      else if negb (is_success (pedal_res smp))
      then fail_call xrGetActionStateBoolean (pedal_res smp)
      else if negb (is_success (pause_res smp))
      then fail_call xrGetActionStateBoolean (pause_res smp)
      else dispatch s smp
  | XR_SESSION_LOSS_PENDING =>
      {| next := Some {| state := state s;
                         topleft := topleft s; bottomright := bottomright s;
                         topright := topright s; bottomleft := bottomleft s;
                         run := 0;
                         mouseX := mouseX s; mouseY := mouseY s |};
         printed := [SessionLost] |}
  | XR_SESSION_NOT_FOCUSED => stay s
  | XR_OTHER _ => fail_call xrSyncActions (sync_res smp)
  end.

(** The states at the head of the loop, as for the later revision. *)
Fixpoint loop_trace (samples : list sample) (s : loop_state) : list loop_state :=
  s :: (if run s =? 0 then []
        else match samples with
             | [] => []
             | smp :: rest =>
                 match next (tick s smp) with
                 | Some s' => loop_trace rest s'
                 | None => []
                 end
             end).

Fixpoint loop_printed (samples : list sample) (s : loop_state) : list message :=
  if run s =? 0 then []
  else match samples with
       | [] => []
       | smp :: rest =>
           printed (tick s smp) ++
           match next (tick s smp) with
           | Some s' => loop_printed rest s'
           | None => []
           end
       end.

(** The two corners that are not captured, from the two that are. *)
Definition flat (s : loop_state) : Prop :=
  topright s = {| v_x := v_x (bottomright s); v_y := v_y (topleft s);
                  v_z := v_z (bottomright s) |} /\
  bottomleft s = {| v_x := v_x (topleft s); v_y := v_y (bottomright s);
                    v_z := v_z (topleft s) |}.

Definition is_pointer_line (m : message) : bool :=
  match m with PointerLine _ _ => true | _ => false end.

End Quad.


(** ** The polling revision

    The earliest [main] with a loop: the four actions are queried and
    nothing is done with them. *)
Module Polling.

Inductive xr_call :=
| xrSyncActions
| xrGetActionStatePose
| xrGetActionStateBoolean.

Inductive message := SessionLost | CallFailed (name : xr_call) (res : XrResult).

(** What one iteration obtains from the runtime; the states queried are
    not read. *)
Record sample := {
  sync_res : XrResult;
  aim_res : XrResult;
  fire_res : XrResult;
  pedal_res : XrResult;
  pause_res : XrResult
}.

(** The loop has one variable, [run]. *)
Record step := { next : option Z; printed : list message }.

Definition fail_call (name : xr_call) (res : XrResult) : step :=
  {| next := None; printed := [CallFailed name res] |}.

Definition tick (run : Z) (smp : sample) : step :=
  match sync_res smp with
  | XR_SUCCESS =>
      if negb (is_success (aim_res smp))
      then fail_call xrGetActionStatePose (aim_res smp)
      else if negb (is_success (fire_res smp))
      then fail_call xrGetActionStateBoolean (fire_res smp)
      else if negb (is_success (pedal_res smp))
      then fail_call xrGetActionStateBoolean (pedal_res smp)
      else if negb (is_success (pause_res smp))
      then fail_call xrGetActionStateBoolean (pause_res smp)
      else {| next := Some run; printed := [] |}
  | XR_SESSION_LOSS_PENDING => {| next := Some 0; printed := [SessionLost] |}
  | XR_SESSION_NOT_FOCUSED => {| next := Some run; printed := [] |}
  | XR_OTHER _ => fail_call xrSyncActions (sync_res smp)
  end.

(** [returnCode] where the loop is left, [None] while it runs: 0 through
    the condition, -5 through [CHECK_ERROR]. *)
Fixpoint loop (samples : list sample) (run : Z) : option Z :=
  if run =? 0 then Some 0
  else match samples with
       | [] => None
       | smp :: rest =>
           match next (tick run smp) with
           | Some run' => loop rest run'
           | None => Some (-5)
           end
       end.

Definition succeeded (smp : sample) : bool :=
  is_success (aim_res smp) && is_success (fire_res smp) &&
  is_success (pedal_res smp) && is_success (pause_res smp).

(** The sample lets the loop go on: not focused, or synced with the four
    queries answered. *)
Definition passes (smp : sample) : bool :=
  match sync_res smp with
  | XR_SUCCESS => succeeded smp
  | XR_SESSION_NOT_FOCUSED => true
  | _ => false
  end.

End Polling.


(** Membership in a trace that has been evaluated. *)
Ltac in_trace := vm_compute; repeat first [left; reflexivity | right].


(** * Properties *)

(** ** Comparisons of floats *)

Lemma SFcompare_refl (x : spec_float) :
  is_nan x = false -> SFcompare x x = Some Eq.
Proof.
  destruct x as [s|s| |s m e]; simpl; try discriminate; intros _.
  - reflexivity.
  - destruct s; reflexivity.
  - rewrite Z.compare_refl.
    change (Pos.compare_cont Eq m m) with (Pos.compare m m).
    rewrite Pos.compare_refl. destruct s; reflexivity.
Qed.

Lemma SFcompare_antisym (a b : spec_float) (c : comparison) :
  SFcompare a b = Some c -> SFcompare b a = Some (CompOpp c).
Proof.
  destruct a as [sa|sa| |sa ma ea], b as [sb|sb| |sb mb eb]; simpl;
    try discriminate; intros H; injection H as <-;
    try (destruct sa; reflexivity); try (destruct sb; reflexivity);
    try (destruct sa, sb; reflexivity).
  change (Pos.compare_cont Eq ma mb) with (Pos.compare ma mb).
  change (Pos.compare_cont Eq mb ma) with (Pos.compare mb ma).
  rewrite (Z.compare_antisym ea eb), (Pos.compare_antisym ma mb).
  destruct sa, sb; try reflexivity;
    destruct (ea ?= eb); simpl; try reflexivity;
    destruct (ma ?= mb)%positive; reflexivity.
Qed.

Lemma SFcompare_ordered (a b : spec_float) :
  is_nan a = false -> is_nan b = false -> exists c, SFcompare a b = Some c.
Proof.
  destruct a, b; simpl; try discriminate; intros _ _; eexists; reflexivity.
Qed.

Lemma SFeqb_refl (x : spec_float) : is_nan x = false -> SFeqb x x = true.
Proof. intros H. unfold SFeqb. rewrite (SFcompare_refl x H). reflexivity. Qed.

Lemma SFleb_refl (x : spec_float) : is_nan x = false -> SFleb x x = true.
Proof. intros H. unfold SFleb. rewrite (SFcompare_refl x H). reflexivity. Qed.

Lemma SFleb_ordered (a b : spec_float) :
  SFleb a b = true -> is_nan a = false /\ is_nan b = false.
Proof. destruct a, b; simpl; try discriminate; auto. Qed.

(** For ordered operands, [a < b] failing means [b <= a]. *)
Lemma SFltb_false_leb (a b : spec_float) :
  is_nan a = false -> is_nan b = false -> SFltb a b = false -> SFleb b a = true.
Proof.
  intros Ha Hb. destruct (SFcompare_ordered a b Ha Hb) as [c Hc].
  unfold SFltb, SFleb. rewrite Hc, (SFcompare_antisym a b c Hc).
  destruct c; simpl; congruence.
Qed.

Lemma SFltb_leb (a b : spec_float) : SFltb a b = true -> SFleb a b = true.
Proof. unfold SFltb, SFleb. destruct (SFcompare a b) as [[]|]; congruence. Qed.

(** A NaN compares false with everything, and unequal to everything. *)
Lemma nan_ltb_l (x : float) : F32.ltb NaN x = false.
Proof. reflexivity. Qed.

Lemma nan_ltb_r (x : float) : F32.ltb x NaN = false.
Proof. destruct x; reflexivity. Qed.

Lemma nan_neb (x : float) : F32.neb NaN x = true.
Proof. reflexivity. Qed.

Lemma in_unit_ordered (u : float) : in_unit u = true -> is_nan u = false.
Proof.
  unfold in_unit. intros H. apply andb_prop in H as [H _].
  apply (SFleb_ordered f0 u H).
Qed.

(** A coordinate in the unit interval passes the range test. *)
Lemma in_unit_on_screen (u : float) :
  in_unit u = true -> F32.ltb u f0 = false /\ F32.gtb u f1 = false.
Proof.
  unfold in_unit, F32.leb, F32.ltb, F32.gtb, SFleb, SFltb.
  intros H. apply andb_prop in H as [H0 H1]. split.
  - destruct (SFcompare f0 u) as [c|] eqn:E; [|discriminate].
    rewrite (SFcompare_antisym f0 u c E). destruct c; simpl; congruence.
  - destruct (SFcompare u f1) as [c|] eqn:E; [|discriminate].
    rewrite (SFcompare_antisym u f1 c E). destruct c; simpl; congruence.
Qed.

(** What passes the range test is a coordinate of the unit interval or a
    NaN. *)
Lemma on_screen_cases (u : float) :
  F32.ltb u f0 = false -> F32.gtb u f1 = false ->
  in_unit u = true \/ is_nan u = true.
Proof.
  intros H0 H1. destruct (is_nan u) eqn:N; [now right|left].
  unfold in_unit. apply andb_true_intro. split.
  - apply SFltb_false_leb; auto.
  - apply SFltb_false_leb; auto.
Qed.

(** ** NaN through the arithmetic of the projection *)

Lemma sub_nan_r (x : float) : F32.sub x NaN = NaN.
Proof. destruct x; reflexivity. Qed.

Lemma add_nan_r (x : float) : F32.add x NaN = NaN.
Proof. destruct x; reflexivity. Qed.

Lemma sub_nan_l (x : float) : F32.sub NaN x = NaN.
Proof. reflexivity. Qed.

Lemma mul_nan_l (x : float) : F32.mul NaN x = NaN.
Proof. reflexivity. Qed.

Lemma div_nan_l (x : float) : F32.div NaN x = NaN.
Proof. reflexivity. Qed.

(** [sqrtf] of a negative number is a NaN. *)
Lemma sqrtf_negative (x : float) : F32.ltb x f0 = true -> sqrtf x = NaN.
Proof. destruct x as [s|[]| |[] m e]; simpl; try discriminate; reflexivity. Qed.

(** Subtracting +infinity leaves -infinity or a NaN, neither of which has
    a square root. *)
Lemma sqrtf_sub_infinity (x : float) :
  sqrtf (F32.sub x (S754_infinity false)) = NaN.
Proof. destruct x as [s|[]| |s m e]; reflexivity. Qed.


(** ** pose_to_pointer: what it returns and what it leaves in the pointer *)

Section ProjectionFacts.
Context {libm : Libm}.
Variables (pose : XrPosef) (cx0 cx1 cy0 cy1 depth : float).
Variable mouse : float * float.

(** The first [if]: a candidate with [u < 0], [u > 1], [v < 0] or [v > 1]
    returns 0 and leaves the pointer alone. *)
Lemma pose_to_pointer_off_screen :
  off_screen (pose_result pose cx0 cx1 cy0 cy1 depth) = true ->
  pose_to_pointer pose cx0 cx1 cy0 cy1 depth mouse = (0, mouse).
Proof. intros H. unfold pose_to_pointer. rewrite H. reflexivity. Qed.

(** The function returns 0 with the pointer unchanged, or 1 with the
    candidate stored, which then passed the range test and differs from
    what was stored. *)
Lemma pose_to_pointer_cases :
  pose_to_pointer pose cx0 cx1 cy0 cy1 depth mouse = (0, mouse) \/
  (pose_to_pointer pose cx0 cx1 cy0 cy1 depth mouse
     = (1, pose_result pose cx0 cx1 cy0 cy1 depth) /\
   off_screen (pose_result pose cx0 cx1 cy0 cy1 depth) = false /\
   differs (pose_result pose cx0 cx1 cy0 cy1 depth) mouse = true).
Proof.
  unfold pose_to_pointer.
  destruct (off_screen _); [now left|].
  destruct (differs _ mouse); [right|left]; auto.
Qed.

Lemma pose_to_pointer_keeps :
  fst (pose_to_pointer pose cx0 cx1 cy0 cy1 depth mouse) = 0 ->
  snd (pose_to_pointer pose cx0 cx1 cy0 cy1 depth mouse) = mouse.
Proof.
  destruct pose_to_pointer_cases as [H|[H _]]; rewrite H; simpl; auto.
  discriminate.
Qed.

Lemma pose_to_pointer_updates :
  fst (pose_to_pointer pose cx0 cx1 cy0 cy1 depth mouse) <> 0 ->
  pose_to_pointer pose cx0 cx1 cy0 cy1 depth mouse
    = (1, pose_result pose cx0 cx1 cy0 cy1 depth) /\
  off_screen (pose_result pose cx0 cx1 cy0 cy1 depth) = false /\
  differs (pose_result pose cx0 cx1 cy0 cy1 depth) mouse = true.
Proof.
  destruct pose_to_pointer_cases as [H|H]; auto.
  rewrite H. simpl. congruence.
Qed.

(** What the function writes passed the range test: each coordinate is in
    the unit interval, or it is a NaN, on which all four comparisons of
    the test are false. *)
Lemma written_pair_in_unit_or_nan :
  fst (pose_to_pointer pose cx0 cx1 cy0 cy1 depth mouse) <> 0 ->
  let m := snd (pose_to_pointer pose cx0 cx1 cy0 cy1 depth mouse) in
  (in_unit (fst m) = true \/ is_nan (fst m) = true) /\
  (in_unit (snd m) = true \/ is_nan (snd m) = true).
Proof.
  intros H m. subst m. destruct (pose_to_pointer_updates H) as (E & Hoff & _).
  rewrite E. simpl. unfold off_screen in Hoff.
  repeat (apply orb_false_elim in Hoff as [Hoff ?]).
  split; apply on_screen_cases; assumption.
Qed.

(** When the square of the distance overflows, or the radicand is
    negative, the offset is a NaN. *)
Lemma offset_nan_of_overflow (nd a : float) :
  F32.mul nd nd = S754_infinity false -> offset nd a = NaN.
Proof.
  intros H. unfold offset, radicand. rewrite H, sqrtf_sub_infinity.
  apply mul_nan_l.
Qed.

Lemma offset_nan_of_negative_radicand (nd a : float) :
  F32.ltb (radicand nd a) f0 = true -> offset nd a = NaN.
Proof.
  intros H. unfold offset. rewrite (sqrtf_negative _ H). apply mul_nan_l.
Qed.

(** A negative radicand on the X axis is not discarded: the X candidate is
    a NaN, the range test lets it through, and it is written whenever the Y
    candidate passes the test too. *)
Lemma negative_radicand_is_written :
  F32.ltb (radicand (fabsf (F32.sub (v_z (position pose)) depth))
                    (pose_angle_x (orientation pose))) f0 = true ->
  F32.ltb (snd (pose_result pose cx0 cx1 cy0 cy1 depth)) f0 = false ->
  F32.gtb (snd (pose_result pose cx0 cx1 cy0 cy1 depth)) f1 = false ->
  pose_to_pointer pose cx0 cx1 cy0 cy1 depth mouse
    = (1, (NaN, snd (pose_result pose cx0 cx1 cy0 cy1 depth))).
Proof.
  intros Hneg Hy0 Hy1.
  assert (Hx : fst (pose_result pose cx0 cx1 cy0 cy1 depth) = NaN).
  { unfold pose_result. cbn [fst].
    rewrite (offset_nan_of_negative_radicand _ _ Hneg).
    rewrite sub_nan_r, sub_nan_l. apply div_nan_l. }
  unfold pose_to_pointer.
  destruct (pose_result pose cx0 cx1 cy0 cy1 depth) as [rx ry].
  cbn [fst snd] in *. subst rx.
  unfold off_screen, differs. cbn [fst snd]. rewrite Hy0, Hy1.
  reflexivity.
Qed.

End ProjectionFacts.

(** The constants of the examples below are values of binary32. *)
Lemma concrete_values_are_binary32 :
  forallb F32.valid
    [f0; f1; f2; f5; fm1; f_half; far; u_hi; z_near; q_w quarter_turn;
     F64.to_float M_PI] = true.
Proof. vm_compute. reflexivity. Qed.

(** A radicand is negative as soon as [powf] returns the square of the
    distance rounded down while the product rounds it up.  With [libm_down],
    the device at z = 0.100097179 facing a plane at depth 0: both radicands
    are one ulp below zero and (NaN, NaN) is written.  (The [powf] of glibc
    2.36 returns that same square, 0.0100194449f, for 0.0100194458f of the
    product.) *)
Lemma negative_radicand_example :
  let pose := pose_at identity f0 f0 z_near in
  F32.ltb (radicand (libm := libm_down)
             (fabsf (F32.sub (v_z (position pose)) f0))
             (pose_angle_x (libm := libm_down) (orientation pose))) f0 = true /\
  pose_to_pointer (libm := libm_down) pose fm1 f1 f1 fm1 f0 (f0, f0)
    = (1, (NaN, NaN)).
Proof. vm_compute. split; reflexivity. Qed.


(** C1 (code bug).  The range test keeps out every candidate with [u < 0],
    [u > 1], [v < 0] or [v > 1] ([pose_to_pointer_off_screen]), but not
    every pair outside the unit square: a NaN fails all four comparisons and
    is written.  With the device at z = 2^127 and the plane at depth 5,
    [normalDistance * normalDistance] overflows to +infinity, the radicand
    is -infinity or a NaN, [sqrtf] of it a NaN, and for every libm, every
    orientation, every x and y and every calibration rectangle the function
    returns 1 and stores (NaN, NaN), which is no point of [0,1]x[0,1]. *)
Theorem pose_to_pointer_writes_nan_on_overflow :
  forall (libm : Libm) (q : XrQuaternionf) (px py cx0 cx1 cy0 cy1 : float)
         (mouse : float * float),
    pose_to_pointer (pose_at q px py far) cx0 cx1 cy0 cy1 f5 mouse
      = (1, (NaN, NaN)) /\
    in_unit NaN = false.
Proof.
  intros. split; [|reflexivity].
  unfold pose_to_pointer, pose_result.
  cbn [pose_at position orientation v_x v_y v_z].
  change (fabsf (F32.sub far f5)) with far.
  rewrite !offset_nan_of_overflow by reflexivity.
  rewrite sub_nan_r, add_nan_r, !sub_nan_l, !div_nan_l.
  reflexivity.
Qed.

(** The same defect on a degenerate rectangle, with the reference libm:
    both corners captured at (0, 0, 5) and the device still there, the
    candidate is 0/0 on both axes and (NaN, NaN) is written. *)
Lemma degenerate_rectangle_writes_nan :
  pose_to_pointer (libm := libm_ref) (pose_at identity f0 f0 f5)
                  f0 f0 f0 f0 f5 (f0, f0)
    = (1, (NaN, NaN)).
Proof. vm_compute. reflexivity. Qed.

(** C3 (code bug).  A ray parallel to the screen plane is not discarded
    when the device is on the plane.  With the reference libm, the
    orientation [quarter_turn] has [poseAngleY] = -1.5707963 after the
    half-turn, whose cosine is about 7.5e-8; at the position (0, 0, 5) with
    depth 5, [normalDistance] is 0, so is the offset, and the candidate
    (0.5, 0.5) is written and 1 returned.  (A negative radicand is not
    discarded either: [negative_radicand_is_written].) *)
Theorem ray_parallel_to_the_plane_is_written :
  F32.ltb (F32.abs (cosf (Libm := libm_ref)
                         (pose_angle_y (libm := libm_ref) quarter_turn)))
          (F32.of_bits 1 (-23)) = true /\
  pose_to_pointer (libm := libm_ref) (pose_at quarter_turn f0 f0 f5)
                  fm1 f1 f1 fm1 f5 (f0, f0)
    = (1, (f_half, f_half)).
Proof. vm_compute. split; reflexivity. Qed.

(** C6.  After an update stored an in-range candidate, a pose that computes
    the same candidate again returns 0 and leaves the pointer as it is: of
    two consecutive poses with one candidate, the first is emitted and the
    second is not. *)
Theorem same_candidate_is_emitted_once :
  forall (libm : Libm) (pose pose' : XrPosef) (cx0 cx1 cy0 cy1 depth : float)
         (mouse : float * float),
    let r := pose_result pose cx0 cx1 cy0 cy1 depth in
    in_unit (fst r) = true -> in_unit (snd r) = true ->
    fst (pose_to_pointer pose cx0 cx1 cy0 cy1 depth mouse) = 1 ->
    pose_result pose' cx0 cx1 cy0 cy1 depth = r ->
    pose_to_pointer pose cx0 cx1 cy0 cy1 depth mouse = (1, r) /\
    pose_to_pointer pose' cx0 cx1 cy0 cy1 depth r = (0, r).
Proof.
  intros libm pose pose' cx0 cx1 cy0 cy1 depth mouse r Hu Hv Hfirst Hsame.
  split.
  - destruct (pose_to_pointer_updates pose cx0 cx1 cy0 cy1 depth mouse)
      as (E & _); [rewrite Hfirst; discriminate|exact E].
  - unfold pose_to_pointer. rewrite Hsame.
    destruct (in_unit_on_screen _ Hu) as [Hu0 Hu1].
    destruct (in_unit_on_screen _ Hv) as [Hv0 Hv1].
    unfold off_screen, differs, F32.neb. rewrite Hu0, Hu1, Hv0, Hv1.
    rewrite !SFeqb_refl by (apply in_unit_ordered; assumption).
    reflexivity.
Qed.

(** The centre of the rectangle of the specification's scenario, seen twice
    in a row: (0.5, 0.5) is emitted the first time only. *)
Lemma same_candidate_is_emitted_once_witness :
  pose_to_pointer (libm := libm_ref) (pose_at identity f0 f0 f0)
                  fm1 f1 f1 fm1 f5 (f0, f0) = (1, (f_half, f_half)) /\
  pose_to_pointer (libm := libm_ref) (pose_at identity f0 f0 f0)
                  fm1 f1 f1 fm1 f5 (f_half, f_half) = (0, (f_half, f_half)).
Proof.
  assert (E : pose_result (libm := libm_ref) (pose_at identity f0 f0 f0)
                          fm1 f1 f1 fm1 f5 = (f_half, f_half))
    by (vm_compute; reflexivity).
  rewrite <- E.
  apply (same_candidate_is_emitted_once libm_ref
           (pose_at identity f0 f0 f0) (pose_at identity f0 f0 f0)
           fm1 f1 f1 fm1 f5 (f0, f0));
    vm_compute; reflexivity.
Defined.


(** ** The loop body *)

Section LoopFacts.
Context {libm : Libm}.

Lemma tick_all_succeeded (s : loop_state) (smp : sample) :
  all_succeeded smp = true -> tick s smp = dispatch s smp.
Proof.
  unfold all_succeeded, tick. intros H.
  repeat (apply andb_prop in H as [H ?]).
  destruct (sync_res smp); try discriminate.
  destruct (time_res smp); try discriminate.
  destruct (locate_res smp); try discriminate.
  destruct (fire_res smp); try discriminate.
  destruct (pedal_res smp); try discriminate.
  destruct (pause_res smp); try discriminate.
  reflexivity.
Qed.

(** An iteration in which a runtime call did not succeed writes nothing. *)
Lemma tick_failed_writes_nothing (s : loop_state) (smp : sample) :
  all_succeeded smp = false -> written (tick s smp) = [].
Proof.
  unfold all_succeeded, tick. intros H.
  destruct (sync_res smp); try reflexivity.
  destruct (time_res smp); try reflexivity.
  destruct (locate_res smp); try reflexivity.
  destruct (fire_res smp); try reflexivity.
  destruct (pedal_res smp); try reflexivity.
  destruct (pause_res smp); try reflexivity.
  discriminate.
Qed.

(** The branch taken in [PLAYING] always continues, with the phase and the
    geometry it found and [sync] back at 0. *)
Lemma playing_next (s : loop_state) (smp : sample) :
  exists s', next (playing s smp) = Some s' /\
             state s' = state s /\ geometry s' = geometry s /\ sync s' = 0.
Proof.
  unfold playing.
  destruct (pose_to_pointer _ _ _ _ _ _ _) as [moved mouse'].
  eexists. split; [reflexivity|]. cbn. repeat split.
  destruct (negb (_ =? 0)) eqn:E; [reflexivity|].
  apply negb_false_iff, Z.eqb_eq in E. exact E.
Qed.

(** One iteration moves the phase and the geometry as [phase_step] says
    and keeps [sync] at 0. *)
Lemma tick_phase_step (s s' : loop_state) (smp : sample) :
  next (tick s smp) = Some s' -> phase_step smp s s'.
Proof.
  unfold tick.
  destruct (sync_res smp) eqn:Esync.
  - destruct (is_success (time_res smp)) eqn:Et; [|discriminate].
    destruct (is_success (locate_res smp)) eqn:El; [|discriminate].
    destruct (is_success (fire_res smp)) eqn:Ef; [|discriminate].
    destruct (is_success (pedal_res smp)) eqn:Ed; [|discriminate].
    destruct (is_success (pause_res smp)) eqn:Eu; [|discriminate].
    cbn [negb].
    assert (Ha : all_succeeded smp = true)
      by (unfold all_succeeded; rewrite Esync, Et, El, Ef, Ed, Eu; reflexivity).
    unfold dispatch. destruct (state s) eqn:Es.
    + unfold record_topleft.
      destruct (pressed_now _) eqn:Ep; cbn; intros [= <-].
      * apply capture_topleft; auto.
        unfold capturing. rewrite Ha, Ep. reflexivity.
      * apply no_capture; auto.
    + unfold record_bottomright.
      destruct (pressed_now _) eqn:Ep; cbn; intros [= <-].
      * apply capture_bottomright; auto.
        unfold capturing. rewrite Ha, Ep. reflexivity.
      * apply no_capture; auto.
    + destruct (playing_next s smp) as (s1 & E1 & Hs & Hg & _).
      rewrite E1. intros [= <-]. apply no_capture; auto.
  - cbn. intros [= <-]. apply no_capture; reflexivity.
  - cbn. intros [= <-]. apply no_capture; reflexivity.
  - discriminate.
Qed.

Lemma tick_keeps_sync_zero (s s' : loop_state) (smp : sample) :
  sync s = 0 -> next (tick s smp) = Some s' -> sync s' = 0.
Proof.
  intros Hz. unfold tick.
  destruct (sync_res smp).
  - repeat (match goal with
            | |- context [if ?b then fail_call _ _ else _] =>
                destruct b; [discriminate|]
            end).
    unfold dispatch. destruct (state s) eqn:Es.
    + unfold record_topleft. destruct (pressed_now _); cbn; intros [= <-]; auto.
    + unfold record_bottomright. destruct (pressed_now _); cbn; intros [= <-]; auto.
    + destruct (playing_next s smp) as (s1 & E1 & _ & _ & Hsync).
      rewrite E1. intros [= <-]. exact Hsync.
  - cbn. intros [= <-]. exact Hz.
  - cbn. intros [= <-]. exact Hz.
  - discriminate.
Qed.

(** The pointer is not touched while recording. *)
Lemma recording_keeps_pointer (s s' : loop_state) (smp : sample) :
  state s <> PLAYING -> next (tick s smp) = Some s' ->
  mouseX s' = mouseX s /\ mouseY s' = mouseY s.
Proof.
  intros Hp. unfold tick.
  destruct (sync_res smp).
  - repeat (match goal with
            | |- context [if ?b then fail_call _ _ else _] =>
                destruct b; [discriminate|]
            end).
    unfold dispatch. destruct (state s) eqn:Es; [| |congruence].
    + unfold record_topleft. destruct (pressed_now _); cbn; intros [= <-]; auto.
    + unfold record_bottomright. destruct (pressed_now _); cbn; intros [= <-]; auto.
  - cbn. intros [= <-]. auto.
  - cbn. intros [= <-]. auto.
  - discriminate.
Qed.

Lemma phase_step_rank {smp : sample} (s s' : loop_state) :
  phase_step smp s s' ->
  (rank (state s') = (if phase_eqb (state s) (state s') then 0 else 1)
                     + rank (state s))%nat.
Proof.
  intros [Hs _|Hs Hs' _ _|Hs Hs' _ _].
  - rewrite Hs. destruct (state s); reflexivity.
  - rewrite Hs, Hs'. reflexivity.
  - rewrite Hs, Hs'. reflexivity.
Qed.

Lemma phase_step_playing {smp : sample} (s s' : loop_state) :
  phase_step smp s s' -> state s = PLAYING ->
  state s' = PLAYING /\ geometry s' = geometry s.
Proof.
  intros [Hs Hg|Hs _ _ _|Hs _ _ _] Hp; try congruence.
  split; congruence.
Qed.

(** The trace starts with the state on entry. *)
Lemma loop_trace_head (samples : list sample) (s : loop_state) :
  exists rest, loop_trace samples s = s :: rest.
Proof. destruct samples; cbn; eexists; reflexivity. Qed.

Lemma last_of_cons {A : Type} (a : A) (l : list A) (d d' : A) :
  last (a :: l) d = last (a :: l) d'.
Proof.
  revert a. induction l as [|b l IH]; intros a; [reflexivity|].
  change (last (b :: l) d = last (b :: l) d'). apply IH.
Qed.

(** Consecutive states of a trace are related by [phase_step], each pair
    for the sample consumed between them. *)
Lemma trace_chain (samples : list sample) :
  forall s, phase_steps samples (loop_trace samples s).
Proof.
  induction samples as [|smp rest IH]; intros s; cbn.
  - destruct (run s =? 0); constructor.
  - destruct (run s =? 0); [constructor|].
    destruct (next (tick s smp)) as [s'|] eqn:E; [|constructor].
    specialize (IH s'). destruct (loop_trace_head rest s') as [tl Etl].
    rewrite Etl in *. constructor; [|exact IH].
    apply (tick_phase_step _ _ _ E).
Qed.

(** The captures along a trace make up the rank gained. *)
Lemma trace_captures (samples : list sample) :
  forall s,
    (captures (loop_trace samples s) + rank (state s))%nat
    = rank (state (last (loop_trace samples s) s)).
Proof.
  induction samples as [|smp rest IH]; intros s; cbn [loop_trace].
  - destruct (run s =? 0); reflexivity.
  - destruct (run s =? 0); [reflexivity|].
    destruct (next (tick s smp)) as [s'|] eqn:E; [|reflexivity].
    specialize (IH s'). destruct (loop_trace_head rest s') as [tl Etl].
    rewrite Etl in *.
    change (last (s :: s' :: tl) s) with (last (s' :: tl) s).
    rewrite (last_of_cons s' tl s s'), <- IH.
    cbn [captures].
    rewrite (phase_step_rank s s' (tick_phase_step _ _ _ E)). lia.
Qed.

(** From [PLAYING] on, the phase and the geometry stay. *)
Lemma trace_frozen (samples : list sample) :
  forall s, state s = PLAYING ->
    Forall (fun s' => state s' = PLAYING /\ geometry s' = geometry s)
           (loop_trace samples s).
Proof.
  induction samples as [|smp rest IH]; intros s Hp; cbn [loop_trace].
  - constructor; [auto|]. destruct (run s =? 0); constructor.
  - constructor; [auto|]. destruct (run s =? 0); [constructor|].
    destruct (next (tick s smp)) as [s'|] eqn:E; [|constructor].
    destruct (phase_step_playing s s' (tick_phase_step _ _ _ E) Hp) as [Hp' Hg].
    apply (Forall_impl _ (P := fun s'' => state s'' = PLAYING /\
                                         geometry s'' = geometry s')).
    + intros s'' [? ?]. split; congruence.
    + apply IH, Hp'.
Qed.

(** What follows a state in a trace is a trace from that state. *)
Lemma trace_suffix (samples : list sample) :
  forall s pre s1 post,
    loop_trace samples s = pre ++ s1 :: post ->
    exists samples', loop_trace samples' s1 = s1 :: post.
Proof.
  induction samples as [|smp rest IH]; intros s pre s1 post H.
  - exists []. destruct pre as [|a pre]; cbn in H.
    + destruct (run s =? 0); injection H as <- <-; cbn;
        destruct (run s =? 0); reflexivity.
    + destruct (run s =? 0); injection H as _ H; destruct pre; discriminate.
  - destruct pre as [|a pre].
    + exists (smp :: rest). cbn [app] in H.
      destruct (loop_trace_head (smp :: rest) s) as [tl Etl].
      rewrite Etl in H. injection H as <- <-. exact Etl.
    + cbn [loop_trace app] in H. injection H as _ H.
      destruct (run s =? 0); [destruct pre; discriminate|].
      destruct (next (tick s smp)) as [s'|]; [|destruct pre; discriminate].
      apply (IH s' pre s1 post H).
Qed.

(** [sync] is 0 at the head of every iteration. *)
Lemma trace_sync_zero (samples : list sample) :
  forall s, sync s = 0 -> Forall (fun s' => sync s' = 0) (loop_trace samples s).
Proof.
  induction samples as [|smp rest IH]; intros s Hz; cbn [loop_trace].
  - constructor; [auto|]. destruct (run s =? 0); constructor.
  - constructor; [auto|]. destruct (run s =? 0); [constructor|].
    destruct (next (tick s smp)) as [s'|] eqn:E; [|constructor].
    apply IH. apply (tick_keeps_sync_zero s s' smp Hz E).
Qed.

End LoopFacts.


(** ** Calibration *)

Section Recording.
Context {libm : Libm}.
Variables (s : loop_state) (smp : sample).
Hypothesis Hok : all_succeeded smp = true.

Lemma tick_record_topleft :
  state s = RECORDING_TOPLEFT -> pressed_now (fireState smp) = true ->
  tick s smp = record_topleft s smp /\
  exists s', next (record_topleft s smp) = Some s' /\
    state s' = RECORDING_BOTTOMRIGHT /\
    x0 s' = v_x (position (aimState smp)) /\
    y0 s' = v_y (position (aimState smp)) /\
    z s' = v_z (position (aimState smp)).
Proof.
  intros Hs Hp. rewrite tick_all_succeeded by assumption.
  unfold dispatch. rewrite Hs. split; [reflexivity|].
  unfold record_topleft. rewrite Hp. eexists. repeat split.
Qed.

Lemma tick_record_bottomright :
  state s = RECORDING_BOTTOMRIGHT -> pressed_now (fireState smp) = true ->
  tick s smp = record_bottomright s smp /\
  exists s', next (record_bottomright s smp) = Some s' /\
    state s' = PLAYING /\
    x0 s' = x0 s /\ y0 s' = y0 s /\
    x1 s' = v_x (position (aimState smp)) /\
    y1 s' = v_y (position (aimState smp)) /\
    z s' = (if F32.ltb (z s) (v_z (position (aimState smp)))
            then z s else v_z (position (aimState smp))) /\
    run s' = run s /\
    written (record_bottomright s smp) = [].
Proof.
  intros Hs Hp. rewrite tick_all_succeeded by assumption.
  unfold dispatch. rewrite Hs. split; [reflexivity|].
  unfold record_bottomright. rewrite Hp. eexists. repeat split.
Qed.

(** Without a pressed edge of fire, a recording phase does nothing. *)
Lemma tick_recording_waits :
  state s <> PLAYING -> pressed_now (fireState smp) = false ->
  tick s smp = stay s.
Proof.
  intros Hs Hp. rewrite tick_all_succeeded by assumption.
  unfold dispatch, record_topleft, record_bottomright. rewrite Hp.
  destruct (state s); congruence.
Qed.

End Recording.

(** C2.  From the first-corner phase, a pressed edge of fire at P1 records
    P1's x, y and z and moves to the second-corner phase; a pressed edge at
    P2 records P2's x and y, keeps the first corner, sets the depth to the
    minimum of the two z and moves to the playing phase; a sample in which
    fire is held without having changed leaves either recording phase, and
    the whole state, as it was. *)
Theorem calibration_sequence :
  forall (libm : Libm) (s : loop_state) (smp1 smp2 smph : sample),
    state s = RECORDING_TOPLEFT ->
    all_succeeded smp1 = true -> all_succeeded smp2 = true ->
    all_succeeded smph = true ->
    pressed_now (fireState smp1) = true ->
    pressed_now (fireState smp2) = true ->
    currentState (fireState smph) = true ->
    changedSinceLastSync (fireState smph) = false ->
    let p1 := position (aimState smp1) in
    let p2 := position (aimState smp2) in
    exists s1 s2,
      next (tick s smp1) = Some s1 /\ next (tick s1 smp2) = Some s2 /\
      state s1 = RECORDING_BOTTOMRIGHT /\
      x0 s1 = v_x p1 /\ y0 s1 = v_y p1 /\ z s1 = v_z p1 /\
      state s2 = PLAYING /\
      x0 s2 = v_x p1 /\ y0 s2 = v_y p1 /\
      x1 s2 = v_x p2 /\ y1 s2 = v_y p2 /\
      is_min (z s2) (v_z p1) (v_z p2) /\
      tick s smph = stay s /\ tick s1 smph = stay s1.
Proof.
  intros libm s smp1 smp2 smph Hs H1 H2 Hh P1 P2 Hc Hn p1 p2.
  subst p1 p2.
  assert (Hw : pressed_now (fireState smph) = false)
    by (unfold pressed_now; rewrite Hn; apply andb_false_r).
  destruct (tick_record_topleft s smp1 H1 Hs P1)
    as (T1 & s1 & E1 & Hs1 & Hx0 & Hy0 & Hz).
  destruct (tick_record_bottomright s1 smp2 H2 Hs1 P2)
    as (T2 & s2 & E2 & Hs2 & Kx0 & Ky0 & Kx1 & Ky1 & Kz & _).
  exists s1, s2. rewrite T1, T2.
  repeat (split; [first [assumption|congruence]|]).
  split; [|split; apply tick_recording_waits; congruence].
  rewrite Kz, Hz.
  set (a := v_z (position (aimState smp1))).
  set (b := v_z (position (aimState smp2))).
  unfold is_min. destruct (F32.ltb a b) eqn:E.
  - split; [now left|]. intros Na Nb. split.
    + apply SFleb_refl, Na.
    + apply SFltb_leb, E.
  - split; [now right|]. intros Na Nb. split.
    + apply SFltb_false_leb; assumption.
    + apply SFleb_refl, Nb.
Qed.

(** The scenario of the specification: corners (-1, 1, 5) and (1, -1, 5),
    and fire held at the first corner in between. *)
Lemma calibration_sequence_witness :
  exists s1 s2,
    next (tick (libm := libm_ref) (initial garbage)
               (sample_of corner1 press idle idle)) = Some s1 /\
    next (tick (libm := libm_ref) s1 (sample_of corner2 press idle idle))
      = Some s2 /\
    state s2 = PLAYING /\
    geometry s2 = (fm1, f1, f1, fm1, f5).
Proof.
  destruct (calibration_sequence libm_ref (initial garbage)
              (sample_of corner1 press idle idle)
              (sample_of corner2 press idle idle)
              (sample_of corner1 held idle idle)
              eq_refl eq_refl eq_refl eq_refl eq_refl eq_refl eq_refl eq_refl)
    as (s1 & s2 & E1 & E2 & _ & _ & _ & _ & Hp & Hx0 & Hy0 & Hx1 & Hy1 & _).
  exists s1, s2. repeat split; try assumption.
  injection E1 as <-. injection E2 as <-. reflexivity.
Defined.

(** C4 (counterexample).  Both corners captured at (0, 0, 5): the loop is in
    the playing phase with [x1 = x0] and [y1 = y0], still running, nothing
    having stopped it. *)
Lemma degenerate_rectangle_reaches_playing :
  let s := state_after (libm := libm_ref)
             (calibrate unit_corner1 unit_corner1) (initial garbage) in
  state s = PLAYING /\ x1 s = x0 s /\ y1 s = y0 s /\ run s = 1.
Proof. vm_compute. repeat split; reflexivity. Qed.

(** C4 (amended).  A pressed edge of fire in the second-corner phase always
    completes the calibration: the loop goes on in the playing phase with
    the pose's x and y as [x1] and [y1], whatever they are; the rectangle is
    not examined, nothing is written and nothing aborts. *)
Theorem second_corner_always_completes :
  forall (libm : Libm) (s : loop_state) (smp : sample),
    state s = RECORDING_BOTTOMRIGHT ->
    all_succeeded smp = true ->
    pressed_now (fireState smp) = true ->
    exists s',
      next (tick s smp) = Some s' /\ state s' = PLAYING /\
      x0 s' = x0 s /\ y0 s' = y0 s /\
      x1 s' = v_x (position (aimState smp)) /\
      y1 s' = v_y (position (aimState smp)) /\
      run s' = run s /\
      written (tick s smp) = [].
Proof.
  intros libm s smp Hs Hok Hp.
  destruct (tick_record_bottomright s smp Hok Hs Hp)
    as (T & s' & E & Hs' & Hx0 & Hy0 & Hx1 & Hy1 & _ & Hrun & Hw).
  exists s'. rewrite T. repeat split; assumption.
Qed.

(** The second corner pressed where the first was. *)
Lemma second_corner_always_completes_witness :
  exists s',
    next (tick (libm := libm_ref)
               (state_after (libm := libm_ref)
                  [sample_of unit_corner1 press idle idle] (initial garbage))
               (sample_of unit_corner1 press idle idle)) = Some s' /\
    state s' = PLAYING /\ x1 s' = x0 s' /\ y1 s' = y0 s'.
Proof.
  destruct (second_corner_always_completes libm_ref
              (state_after (libm := libm_ref)
                 [sample_of unit_corner1 press idle idle] (initial garbage))
              (sample_of unit_corner1 press idle idle)
              eq_refl eq_refl eq_refl)
    as (s' & E & Hp & Hx0 & Hy0 & Hx1 & Hy1 & _).
  exists s'. repeat split; try assumption.
  - rewrite Hx0, Hx1. reflexivity.
  - rewrite Hy0, Hy1. reflexivity.
Defined.

(** ** Quitting *)

(** C5 (counterexample).  In the first-corner phase, a sample with fire and
    pause both held changes nothing: [run] is still 1. *)
Lemma quit_chord_is_ignored_while_recording :
  let smp := sample_of corner1 held idle held in
  currentState (fireState smp) = true /\
  currentState (pauseState smp) = true /\
  tick (libm := libm_ref) (initial garbage) smp = stay (initial garbage) /\
  run (initial garbage) = 1.
Proof. vm_compute. repeat split; reflexivity. Qed.

(** C5 (amended).  On an iteration whose runtime calls all succeeded and in
    which fire and pause are both down, whatever their edge flags: in the
    playing phase [run] is 0 at the end of the iteration; in the two
    recording phases the buttons' levels are not looked at and [run] is
    what it was. *)
Theorem quit_chord_stops_the_loop_when_playing :
  forall (libm : Libm) (s : loop_state) (smp : sample),
    all_succeeded smp = true ->
    currentState (fireState smp) = true ->
    currentState (pauseState smp) = true ->
    exists s',
      next (tick s smp) = Some s' /\
      run s' = if phase_eqb (state s) PLAYING then 0 else run s.
Proof.
  intros libm s smp Hok Hf Hp.
  rewrite tick_all_succeeded by assumption.
  unfold dispatch. destruct (state s) eqn:Es; cbn [phase_eqb].
  - unfold record_topleft. destruct (pressed_now _); eexists; split; reflexivity.
  - unfold record_bottomright. destruct (pressed_now _); eexists; split; reflexivity.
  - unfold playing. rewrite Hf, Hp.
    destruct (pose_to_pointer _ _ _ _ _ _ _). eexists; split; reflexivity.
Qed.

(** After the calibration of the scenario, fire still down and pause
    pressed. *)
Lemma quit_chord_stops_the_loop_when_playing_witness :
  exists s',
    next (tick (libm := libm_ref)
               (state_after (libm := libm_ref)
                  (calibrate corner1 corner2) (initial garbage))
               (sample_of corner2 held idle press)) = Some s' /\
    run s' = 0.
Proof.
  apply (quit_chord_stops_the_loop_when_playing libm_ref
           (state_after (libm := libm_ref)
              (calibrate corner1 corner2) (initial garbage))
           (sample_of corner2 held idle press));
    vm_compute; reflexivity.
Defined.


(** ** The events of a playing iteration *)

Section Playing.
Context {libm : Libm}.
Variables (s : loop_state) (smp : sample).

(** What a playing iteration writes when the pointer moved: the button
    events, the two positions, one barrier. *)
Lemma playing_written_moved :
  sync s = 0 ->
  fst (pose_to_pointer (aimState smp) (x0 s) (x1 s) (y0 s) (y1 s) (z s)
                       (mouseX s, mouseY s)) <> 0 ->
  written (playing s smp)
    = (key_event BTN_LEFT (fireState smp) ++ key_event KEY_Z (pedalState smp) ++
       key_event KEY_C (pauseState smp)) ++
      abs_events (snd (pose_to_pointer (aimState smp) (x0 s) (x1 s) (y0 s)
                                       (y1 s) (z s) (mouseX s, mouseY s))) ++
      [syn_event] /\
  option_map (fun s' => (mouseX s', mouseY s')) (next (playing s smp))
    = Some (snd (pose_to_pointer (aimState smp) (x0 s) (x1 s) (y0 s) (y1 s)
                                 (z s) (mouseX s, mouseY s))).
Proof.
  intros Hz Hm. unfold playing.
  destruct (pose_to_pointer _ _ _ _ _ _ _) as [moved mouse'].
  cbn [fst snd] in *.
  apply Z.eqb_neq in Hm. rewrite Hm. cbn.
  destruct mouse'. split; reflexivity.
Qed.

(** What it writes when the pointer did not move: the button events and,
    if there are any, one barrier. *)
Lemma playing_written_still :
  sync s = 0 ->
  fst (pose_to_pointer (aimState smp) (x0 s) (x1 s) (y0 s) (y1 s) (z s)
                       (mouseX s, mouseY s)) = 0 ->
  written (playing s smp)
    = (key_event BTN_LEFT (fireState smp) ++ key_event KEY_Z (pedalState smp) ++
       key_event KEY_C (pauseState smp)) ++
      match key_event BTN_LEFT (fireState smp) ++
            key_event KEY_Z (pedalState smp) ++
            key_event KEY_C (pauseState smp) with
      | [] => []
      | _ => [syn_event]
      end.
Proof.
  intros Hz Hm. unfold playing.
  destruct (pose_to_pointer _ _ _ _ _ _ _) as [moved mouse'].
  cbn [fst snd] in *. subst moved.
  unfold key_event. rewrite Hz. cbn.
  destruct (changedSinceLastSync (fireState smp)),
           (changedSinceLastSync (pedalState smp)),
           (changedSinceLastSync (pauseState smp)); reflexivity.
Qed.

Lemma keys_are_not_barriers :
  Forall (fun e => is_syn e = false)
         (key_event BTN_LEFT (fireState smp) ++ key_event KEY_Z (pedalState smp) ++
          key_event KEY_C (pauseState smp)).
Proof.
  unfold key_event.
  destruct (changedSinceLastSync (fireState smp)),
           (changedSinceLastSync (pedalState smp)),
           (changedSinceLastSync (pauseState smp));
    repeat constructor.
Qed.

End Playing.

(** ** The C cast discards the fraction *)

Lemma shiftl_neg_div (m : positive) (e : Z) :
  e < 0 -> Z.shiftl (Zpos m) e = Zpos m / 2 ^ (- e).
Proof.
  intros He. rewrite <- Z.shiftr_opp_r. apply Z.shiftr_div_pow2. lia.
Qed.

Lemma SFtrunc_quot (sg : bool) (m : positive) (e : Z) :
  e < 0 ->
  SFtrunc (S754_finite sg m e) = Some (Z.quot (cond_Zopp sg (Zpos m)) (2 ^ (- e))).
Proof.
  intros He. cbn [SFtrunc]. rewrite shiftl_neg_div by assumption.
  assert (Hp : 0 < 2 ^ (- e)) by (apply Z.pow_pos_nonneg; lia).
  f_equal. destruct sg; cbn [cond_Zopp].
  - change (Z.neg m) with (- Z.pos m).
    rewrite Z.quot_opp_l by lia. rewrite Z.quot_div_nonneg by lia. reflexivity.
  - rewrite Z.quot_div_nonneg by lia. reflexivity.
Qed.

(** C7 (counterexample).  On the unit rectangle, the pose at x = 4095/4096
    updates the pointer to u = 4095/4096; u * 1920 is 1919.53125, whose
    nearest integer is 1920, and the event carries 1919. *)
Lemma pixel_is_not_the_nearest_integer :
  let s := state_after (libm := libm_ref)
             (calibrate unit_corner1 unit_corner2) (initial garbage) in
  let st := tick (libm := libm_ref) s
              (sample_of (pose_at identity u_hi f_half f5) idle idle idle) in
  option_map mouseX (next st) = Some u_hi /\
  written st = [abs_at ABS_X 1919; abs_at ABS_Y 540; syn_event] /\
  spec_round_scaled u_hi SCREEN_WIDTH = Some 1920.
Proof. vm_compute. repeat split; reflexivity. Qed.

(** C7 (amended).  When a playing iteration updates the pointer to (u, v),
    it writes, after the button events and before the one barrier, ABS_X
    with [(int) (u * 1920)] and ABS_Y with [(int) (v * 1080)]: the [float]
    product converted by the C cast, which discards the fraction (the
    quotient rounded toward zero) and does not round to the nearest integer.
    (0.5, 0.5) gives (960, 540). *)
Theorem pointer_event_is_truncated_product :
  forall (libm : Libm) (g : float * float * float * float * float)
         (samples : list sample) (s : loop_state) (smp : sample),
    In s (loop_trace samples (initial g)) ->
    state s = PLAYING ->
    all_succeeded smp = true ->
    fst (pose_to_pointer (aimState smp) (x0 s) (x1 s) (y0 s) (y1 s) (z s)
                         (mouseX s, mouseY s)) = 1 ->
    let r := pose_result (aimState smp) (x0 s) (x1 s) (y0 s) (y1 s) (z s) in
    written (tick s smp)
      = key_event BTN_LEFT (fireState smp) ++ key_event KEY_Z (pedalState smp) ++
        key_event KEY_C (pauseState smp) ++
        [ abs_at ABS_X (F32.to_int (F32.mul (fst r) (F32.of_int SCREEN_WIDTH)));
          abs_at ABS_Y (F32.to_int (F32.mul (snd r) (F32.of_int SCREEN_HEIGHT)));
          syn_event ] /\
    option_map (fun s' => (mouseX s', mouseY s')) (next (tick s smp)) = Some r /\
    (forall (sg : bool) (m : positive) (e : Z),
        e < 0 ->
        INT_MIN <= Z.quot (cond_Zopp sg (Zpos m)) (2 ^ (- e)) <= INT_MAX ->
        F32.to_int (S754_finite sg m e)
          = Z.quot (cond_Zopp sg (Zpos m)) (2 ^ (- e))) /\
    abs_events (f_half, f_half) = [abs_at ABS_X 960; abs_at ABS_Y 540].
Proof.
  intros libm g samples s smp Hin Hs Hok Hm r.
  assert (Hz : sync s = 0).
  { pose proof (trace_sync_zero samples (initial g)) as F.
    rewrite Forall_forall in F. apply F; [|exact Hin].
    destruct g as [[[[? ?] ?] ?] ?]. reflexivity. }
  rewrite tick_all_succeeded by assumption.
  unfold dispatch. rewrite Hs.
  destruct (pose_to_pointer_updates (aimState smp) (x0 s) (x1 s) (y0 s) (y1 s)
              (z s) (mouseX s, mouseY s)) as (E & _); [rewrite Hm; discriminate|].
  destruct (playing_written_moved s smp Hz) as [W N]; [rewrite Hm; discriminate|].
  rewrite W, N, E. cbn [snd]. fold r.
  split; [rewrite <- !app_assoc; reflexivity|].
  split; [reflexivity|]. split; [|reflexivity].
  intros sg m e He Hr. unfold F32.to_int. rewrite SFtrunc_quot by assumption.
  destruct Hr as [Hlo Hhi].
  apply Z.leb_le in Hlo, Hhi. rewrite Hlo, Hhi. reflexivity.
Qed.

(** The centre of the scenario's rectangle, fire being released: the
    button event, (960, 540) and the barrier. *)
Lemma pointer_event_is_truncated_product_witness :
  written (tick (libm := libm_ref)
             (state_after (libm := libm_ref)
                (calibrate corner1 corner2) (initial garbage))
             (sample_of (pose_at identity f0 f0 f0) release idle idle))
    = [key BTN_LEFT false; abs_at ABS_X 960; abs_at ABS_Y 540; syn_event].
Proof.
  destruct (pointer_event_is_truncated_product libm_ref garbage
              (calibrate corner1 corner2)
              (state_after (libm := libm_ref)
                 (calibrate corner1 corner2) (initial garbage))
              (sample_of (pose_at identity f0 f0 f0) release idle idle))
    as (W & _); [in_trace|reflexivity|reflexivity|vm_compute; reflexivity|].
  rewrite W. vm_compute. reflexivity.
Defined.

(** C9.  At the head of any iteration of the loop in the playing phase:
    the iteration writes its button and position events, none of them a
    barrier, and then exactly one EV_SYN if there was at least one event,
    none if there was none.  When the runtime calls succeeded, a pressed
    edge of pedal with no other button change and no pointer update writes
    the KEY_Z press and one barrier, and nothing else. *)
Theorem one_barrier_per_batch :
  forall (libm : Libm) (g : float * float * float * float * float)
         (samples : list sample) (s : loop_state) (smp : sample),
    In s (loop_trace samples (initial g)) ->
    state s = PLAYING ->
    exists evs,
      Forall (fun e => is_syn e = false) evs /\
      written (tick s smp)
        = evs ++ match evs with [] => [] | _ => [syn_event] end /\
      (all_succeeded smp = true ->
       changedSinceLastSync (fireState smp) = false ->
       pressed_now (pedalState smp) = true ->
       changedSinceLastSync (pauseState smp) = false ->
       fst (pose_to_pointer (aimState smp) (x0 s) (x1 s) (y0 s) (y1 s) (z s)
                            (mouseX s, mouseY s)) = 0 ->
       written (tick s smp) = [key KEY_Z true; syn_event]).
Proof.
  intros libm g samples s smp Hin Hs.
  assert (Hz : sync s = 0).
  { pose proof (trace_sync_zero samples (initial g)) as F.
    rewrite Forall_forall in F. apply F; [|exact Hin].
    destruct g as [[[[? ?] ?] ?] ?]. reflexivity. }
  destruct (all_succeeded smp) eqn:Hok.
  2:{ exists []. rewrite (tick_failed_writes_nothing s smp Hok).
      repeat split; [constructor|discriminate]. }
  rewrite tick_all_succeeded by assumption.
  unfold dispatch. rewrite Hs.
  set (keys := key_event BTN_LEFT (fireState smp) ++
               key_event KEY_Z (pedalState smp) ++
               key_event KEY_C (pauseState smp)).
  destruct (Z.eq_dec
              (fst (pose_to_pointer (aimState smp) (x0 s) (x1 s) (y0 s) (y1 s)
                                    (z s) (mouseX s, mouseY s))) 0) as [Hm|Hm].
  - exists keys. split; [apply keys_are_not_barriers|].
    split; [apply playing_written_still; assumption|].
    intros _ Hf Hp Hq _. rewrite (playing_written_still s smp Hz Hm).
    unfold key_event, pressed_now in *. rewrite Hf, Hq.
    apply andb_prop in Hp as [Hc Hd]. rewrite Hc, Hd. reflexivity.
  - destruct (playing_written_moved s smp Hz Hm) as [W _].
    exists (keys ++ abs_events
                      (snd (pose_to_pointer (aimState smp) (x0 s) (x1 s) (y0 s)
                                            (y1 s) (z s) (mouseX s, mouseY s)))).
    split.
    + apply Forall_app. split; [apply keys_are_not_barriers|].
      repeat constructor.
    + split; [|intros _ _ _ _ H; congruence].
      rewrite W. fold keys. rewrite <- app_assoc.
      destruct keys; reflexivity.
Qed.

(** After the calibration of the scenario and one iteration at the second
    corner, which stores (1, 1): pedal pressed, the pose unchanged. *)
Lemma one_barrier_per_batch_witness :
  written (tick (libm := libm_ref)
             (state_after (libm := libm_ref)
                (calibrate corner1 corner2 ++
                 [sample_of corner2 release idle idle]) (initial garbage))
             (sample_of corner2 idle press idle))
    = [key KEY_Z true; syn_event].
Proof.
  destruct (one_barrier_per_batch libm_ref garbage
              (calibrate corner1 corner2 ++ [sample_of corner2 release idle idle])
              (state_after (libm := libm_ref)
                 (calibrate corner1 corner2 ++
                  [sample_of corner2 release idle idle]) (initial garbage))
              (sample_of corner2 idle press idle))
    as (evs & _ & _ & P); [in_trace|reflexivity|].
  apply P; vm_compute; reflexivity.
Defined.


(** ** The phase along a run *)

(** A sample that is [capturing] changes the phase of a recording state. *)
Lemma capturing_changes_phase {libm : Libm} (s s' : loop_state) (smp : sample) :
  state s <> PLAYING -> capturing smp = true ->
  next (tick s smp) = Some s' -> state s' <> state s.
Proof.
  intros Hs Hc. apply andb_prop in Hc as [Ha Hp].
  rewrite tick_all_succeeded by assumption.
  unfold dispatch, record_topleft, record_bottomright. rewrite Hp.
  destruct (state s) eqn:Es; [| |congruence]; intros [= <-]; cbn; discriminate.
Qed.

(** From the second-corner phase, a playing state holds the first corner
    as it was and the position of the first capturing sample. *)
Lemma geometry_after_second_capture {libm : Libm} (samples : list sample) :
  forall s0 s,
    state s0 = RECORDING_BOTTOMRIGHT ->
    In s (loop_trace samples s0) -> state s = PLAYING ->
    exists pre smp2 post,
      samples = pre ++ smp2 :: post /\
      Forall (fun smp => capturing smp = false) pre /\
      capturing smp2 = true /\
      geometry s = (x0 s0, y0 s0,
                    v_x (position (aimState smp2)), v_y (position (aimState smp2)),
                    if F32.ltb (z s0) (v_z (position (aimState smp2)))
                    then z s0 else v_z (position (aimState smp2))).
Proof.
  induction samples as [|smp rest IH]; intros s0 s H0 Hin Hp.
  - cbn in Hin. destruct (run s0 =? 0); destruct Hin as [<-|[]]; congruence.
  - cbn [loop_trace] in Hin. destruct Hin as [<-|Hin]; [congruence|].
    destruct (run s0 =? 0); [destruct Hin|].
    destruct (next (tick s0 smp)) as [s'|] eqn:E; [|destruct Hin].
    destruct (tick_phase_step s0 s' smp E) as [Hs Hg|Hs _ _ _|_ Hs' Hc Hg].
    + rewrite H0 in Hs.
      destruct (IH s' s Hs Hin Hp) as (pre & smp2 & post & -> & Hq & Hc & Hgs).
      exists (smp :: pre), smp2, post. split; [reflexivity|].
      split; [|split; [exact Hc|]].
      * constructor; [|exact Hq].
        destruct (capturing smp) eqn:Ec; [|reflexivity].
        exfalso. apply (capturing_changes_phase s0 s' smp); congruence.
      * unfold geometry in Hg. injection Hg as Hx0 Hy0 _ _ Hz.
        rewrite Hgs, Hx0, Hy0, Hz. reflexivity.
    + congruence.
    + exists [], smp, rest. split; [reflexivity|].
      split; [constructor|]. split; [exact Hc|].
      pose proof (trace_frozen rest s' Hs') as F.
      rewrite Forall_forall in F. destruct (F s Hin) as [_ Hgs].
      rewrite Hgs. exact Hg.
Qed.

(** From the first-corner phase, a playing state holds the positions of
    the first two capturing samples. *)
Lemma geometry_after_calibration {libm : Libm} (samples : list sample) :
  forall s0 s,
    state s0 = RECORDING_TOPLEFT ->
    In s (loop_trace samples s0) -> state s = PLAYING ->
    exists pre smp1 mid smp2 post,
      samples = pre ++ smp1 :: mid ++ smp2 :: post /\
      Forall (fun smp => capturing smp = false) pre /\
      capturing smp1 = true /\
      Forall (fun smp => capturing smp = false) mid /\
      capturing smp2 = true /\
      geometry s = calibrated (position (aimState smp1))
                              (position (aimState smp2)).
Proof.
  induction samples as [|smp rest IH]; intros s0 s H0 Hin Hp.
  - cbn in Hin. destruct (run s0 =? 0); destruct Hin as [<-|[]]; congruence.
  - cbn [loop_trace] in Hin. destruct Hin as [<-|Hin]; [congruence|].
    destruct (run s0 =? 0); [destruct Hin|].
    destruct (next (tick s0 smp)) as [s'|] eqn:E; [|destruct Hin].
    destruct (tick_phase_step s0 s' smp E) as [Hs Hg|_ Hs' Hc Hg|Hs _ _ _].
    + rewrite H0 in Hs.
      destruct (IH s' s Hs Hin Hp)
        as (pre & smp1 & mid & smp2 & post & -> & Hq & Hc1 & Hm & Hc2 & Hgs).
      exists (smp :: pre), smp1, mid, smp2, post. split; [reflexivity|].
      split; [|auto].
      constructor; [|exact Hq].
      destruct (capturing smp) eqn:Ec; [|reflexivity].
      exfalso. apply (capturing_changes_phase s0 s' smp); congruence.
    + destruct (geometry_after_second_capture rest s' s Hs' Hin Hp)
        as (mid & smp2 & post & -> & Hm & Hc2 & Hgs).
      exists [], smp, mid, smp2, post. split; [reflexivity|].
      split; [constructor|]. split; [exact Hc|]. split; [exact Hm|].
      split; [exact Hc2|].
      unfold geometry in Hg. injection Hg as Hx0 Hy0 _ _ Hz.
      rewrite Hgs, Hx0, Hy0, Hz. reflexivity.
    + congruence.
Qed.

(** C8.  Along every run of the loop: it starts in the first-corner phase;
    each iteration either leaves the phase and the geometry alone or
    captures one corner, going from the first-corner to the second-corner
    phase or from the second-corner to the playing phase, and writing the
    position of that sample's pose into the geometry; the captures number
    the rank of the phase reached, two once the loop is playing; from a
    playing state on, the phase and the geometry never change; and the
    geometry of a playing state is what exactly two samples wrote, the
    first two that capture: x0, y0 from the first, x1, y1 from the second,
    the depth the lesser of their two z. *)
Theorem phase_only_moves_forward :
  forall (libm : Libm) (g : float * float * float * float * float)
         (samples : list sample),
    let tr := loop_trace samples (initial g) in
    hd_error tr = Some (initial g) /\
    state (initial g) = RECORDING_TOPLEFT /\
    phase_steps samples tr /\
    captures tr = rank (state (last tr (initial g))) /\
    (captures tr <= 2)%nat /\
    (forall pre s post,
        tr = pre ++ s :: post -> state s = PLAYING ->
        Forall (fun s' => state s' = PLAYING /\ geometry s' = geometry s) post) /\
    (forall s,
        In s tr -> state s = PLAYING ->
        exists pre smp1 mid smp2 post,
          samples = pre ++ smp1 :: mid ++ smp2 :: post /\
          Forall (fun smp => capturing smp = false) pre /\
          capturing smp1 = true /\
          Forall (fun smp => capturing smp = false) mid /\
          capturing smp2 = true /\
          geometry s = calibrated (position (aimState smp1))
                                  (position (aimState smp2))).
Proof.
  intros libm g samples tr.
  assert (H0 : state (initial g) = RECORDING_TOPLEFT)
    by (destruct g as [[[[? ?] ?] ?] ?]; reflexivity).
  assert (Hc : captures tr = rank (state (last tr (initial g)))).
  { pose proof (trace_captures samples (initial g)) as H.
    rewrite H0 in H. cbn [rank] in H. fold tr in H. lia. }
  split; [|split; [exact H0|split; [apply trace_chain|split;
    [exact Hc|split; [|split]]]]].
  - subst tr. destruct (loop_trace_head samples (initial g)) as [tl ->].
    reflexivity.
  - rewrite Hc. destruct (state (last tr (initial g))); cbn; lia.
  - intros pre s post E Hp.
    destruct (trace_suffix samples (initial g) pre s post E) as [samples' E'].
    pose proof (trace_frozen samples' s Hp) as F.
    rewrite E' in F. inversion F; assumption.
  - intros s Hin Hp.
    apply (geometry_after_calibration samples (initial g) s H0 Hin Hp).
Qed.

(** The calibration of the scenario: its playing state holds what the two
    presses wrote. *)
Lemma phase_only_moves_forward_witness :
  exists pre smp1 mid smp2 post,
    calibrate corner1 corner2 = pre ++ smp1 :: mid ++ smp2 :: post /\
    Forall (fun smp => capturing smp = false) pre /\
    capturing smp1 = true /\
    Forall (fun smp => capturing smp = false) mid /\
    capturing smp2 = true /\
    geometry (state_after (libm := libm_ref) (calibrate corner1 corner2)
                          (initial garbage))
    = calibrated (position (aimState smp1)) (position (aimState smp2)).
Proof.
  destruct (phase_only_moves_forward libm_ref garbage
              (calibrate corner1 corner2)) as (_ & _ & _ & _ & _ & _ & H).
  apply H; [in_trace|reflexivity].
Defined.

(** ** The first candidate *)

(** C10 (counterexample).  After a calibration on the unit rectangle the
    pointer still holds what it was created with, (0, 0), a point of the
    unit square; the pose at the first corner has the in-range candidate
    (0, 0), and the iteration writes nothing. *)
Lemma first_candidate_at_origin_is_not_emitted :
  let s := state_after (libm := libm_ref)
             (calibrate unit_corner1 unit_corner2) (initial garbage) in
  let smp := sample_of unit_corner1 held idle idle in
  state s = PLAYING /\
  (mouseX s, mouseY s) = (mouseX (initial garbage), mouseY (initial garbage)) /\
  in_unit (mouseX (initial garbage)) = true /\
  in_unit (mouseY (initial garbage)) = true /\
  pose_result (libm := libm_ref) (aimState smp)
              (x0 s) (x1 s) (y0 s) (y1 s) (z s) = (f0, f0) /\
  written (tick (libm := libm_ref) s smp) = [] /\
  next (tick (libm := libm_ref) s smp) = Some s.
Proof. vm_compute. repeat split; reflexivity. Qed.

(** C10 (amended).  The pointer is created as (0, 0), a valid normalised
    coordinate and not a value apart from them; an in-range candidate met
    with the pointer still as created is emitted exactly when it differs
    from (0, 0): the candidate (0, 0) itself returns 0 and is not
    emitted. *)
Theorem first_candidate_is_compared_with_origin :
  forall (libm : Libm) (g : float * float * float * float * float)
         (pose : XrPosef) (cx0 cx1 cy0 cy1 depth : float),
    let r := pose_result pose cx0 cx1 cy0 cy1 depth in
    in_unit (fst r) = true -> in_unit (snd r) = true ->
    (mouseX (initial g), mouseY (initial g)) = (f0, f0) /\
    in_unit f0 = true /\
    pose_to_pointer pose cx0 cx1 cy0 cy1 depth
                    (mouseX (initial g), mouseY (initial g))
      = if F32.eqb (fst r) f0 && F32.eqb (snd r) f0
        then (0, (f0, f0)) else (1, r).
Proof.
  intros libm g pose cx0 cx1 cy0 cy1 depth r Hu Hv.
  assert (Hm : (mouseX (initial g), mouseY (initial g)) = (f0, f0))
    by (destruct g as [[[[? ?] ?] ?] ?]; reflexivity).
  split; [exact Hm|]. split; [reflexivity|].
  rewrite Hm. unfold pose_to_pointer. fold r.
  destruct (in_unit_on_screen _ Hu) as [Hu0 Hu1].
  destruct (in_unit_on_screen _ Hv) as [Hv0 Hv1].
  unfold off_screen, differs, F32.neb, F32.eqb.
  rewrite Hu0, Hu1, Hv0, Hv1. cbn [orb fst snd].
  destruct (SFeqb (fst r) f0), (SFeqb (snd r) f0); reflexivity.
Qed.

(** As first candidates, the centre of the scenario's rectangle is emitted;
    the first corner of the unit rectangle, whose candidate is (0, 0), is
    not. *)
Lemma first_candidate_is_compared_with_origin_witness :
  pose_to_pointer (libm := libm_ref) (pose_at identity f0 f0 f0)
                  fm1 f1 f1 fm1 f5
                  (mouseX (initial garbage), mouseY (initial garbage))
    = (1, (f_half, f_half)) /\
  pose_to_pointer (libm := libm_ref) unit_corner1 f0 f1 f0 f1 f5
                  (mouseX (initial garbage), mouseY (initial garbage))
    = (0, (f0, f0)).
Proof.
  split.
  - destruct (first_candidate_is_compared_with_origin libm_ref garbage
                (pose_at identity f0 f0 f0) fm1 f1 f1 fm1 f5)
      as (_ & _ & E); [vm_compute; reflexivity|vm_compute; reflexivity|].
    rewrite E. vm_compute. reflexivity.
  - destruct (first_candidate_is_compared_with_origin libm_ref garbage
                unit_corner1 f0 f1 f0 f1 f5)
      as (_ & _ & E); [vm_compute; reflexivity|vm_compute; reflexivity|].
    rewrite E. vm_compute. reflexivity.
Defined.


(** * Further properties of the code *)

(** ** pose_to_pointer beyond the claims *)

Lemma mul_opp_opp (a b : float) : F32.mul (SFopp a) (SFopp b) = F32.mul a b.
Proof.
  destruct a as [sa|sa| |sa ma ea], b as [sb|sb| |sb mb eb]; cbn;
    try reflexivity; destruct sa, sb; reflexivity.
Qed.

(** X1.  The two quaternions of one rotation, [q] and [-q], give the same
    candidate and the same call: the angles are read off products of two
    components, and a product of two floats does not change when both
    change sign. *)
Theorem negated_quaternion_same_pointer :
  forall (libm : Libm) (q : XrQuaternionf) (p : XrVector3f)
         (cx0 cx1 cy0 cy1 depth : float) (mouse : float * float),
    pose_to_pointer {| orientation := q_opp q; position := p |}
                    cx0 cx1 cy0 cy1 depth mouse
    = pose_to_pointer {| orientation := q; position := p |}
                      cx0 cx1 cy0 cy1 depth mouse.
Proof.
  intros. unfold pose_to_pointer, pose_result, pose_angle_x, pose_angle_y,
    pose_angle_y_raw, q_opp.
  cbn [orientation position q_x q_y q_z q_w].
  rewrite !mul_opp_opp. reflexivity.
Qed.

(** X2.  What a call does to the pointer: it returns 0 and leaves it, or
    returns 1 and stores the candidate, and then each stored coordinate is
    in [0,1] or is a NaN; an infinite or out-of-range coordinate is never
    stored. *)
Theorem pose_to_pointer_stores_unit_or_nan :
  forall (libm : Libm) (pose : XrPosef) (cx0 cx1 cy0 cy1 depth : float)
         (mouse : float * float),
    let out := pose_to_pointer pose cx0 cx1 cy0 cy1 depth mouse in
    (out = (0, mouse)) \/
    (out = (1, pose_result pose cx0 cx1 cy0 cy1 depth) /\
     differs (snd out) mouse = true /\
     (in_unit (fst (snd out)) = true \/ is_nan (fst (snd out)) = true) /\
     (in_unit (snd (snd out)) = true \/ is_nan (snd (snd out)) = true)).
Proof.
  intros libm pose cx0 cx1 cy0 cy1 depth mouse out. subst out.
  destruct (pose_to_pointer_cases pose cx0 cx1 cy0 cy1 depth mouse)
    as [E|(E & Hoff & Hd)]; [now left|right].
  rewrite E. cbn [fst snd]. split; [reflexivity|]. split; [exact Hd|].
  unfold off_screen in Hoff.
  repeat (apply orb_false_elim in Hoff as [Hoff ?]).
  split; apply on_screen_cases; assumption.
Qed.

(** X3.  A candidate with a NaN coordinate that passes the range test is
    written at every call, whatever the pointer holds, the NaN included: a
    NaN differs from everything, itself too, so the same pose is reported
    as an update on every iteration. *)
Theorem nan_candidate_is_written_every_time :
  forall (libm : Libm) (pose : XrPosef) (cx0 cx1 cy0 cy1 depth : float),
    let r := pose_result pose cx0 cx1 cy0 cy1 depth in
    is_nan (fst r) || is_nan (snd r) = true ->
    off_screen r = false ->
    forall mouse : float * float,
      pose_to_pointer pose cx0 cx1 cy0 cy1 depth mouse = (1, r).
Proof.
  intros libm pose cx0 cx1 cy0 cy1 depth r Hnan Hoff mouse.
  unfold pose_to_pointer. fold r. rewrite Hoff.
  assert (Hd : differs r mouse = true).
  { unfold differs, F32.neb. apply orb_true_iff in Hnan as [H|H].
    - destruct (fst r); try discriminate. reflexivity.
    - destruct (snd r); try discriminate. apply orb_true_r. }
  rewrite Hd. reflexivity.
Qed.

(** On the rectangle with both corners at (0, 0, 5): the pointer already
    holding (NaN, NaN), the same pose is written again. *)
Lemma nan_candidate_is_written_every_time_witness :
  pose_to_pointer (libm := libm_ref) (pose_at identity f0 f0 f5)
                  f0 f0 f0 f0 f5 (NaN, NaN) = (1, (NaN, NaN)).
Proof.
  assert (E : pose_result (libm := libm_ref) (pose_at identity f0 f0 f5)
                          f0 f0 f0 f0 f5 = (NaN, NaN))
    by (vm_compute; reflexivity).
  rewrite <- E at 2.
  apply (nan_candidate_is_written_every_time libm_ref
           (pose_at identity f0 f0 f5) f0 f0 f0 f0 f5);
    vm_compute; reflexivity.
Defined.

Lemma sub_self (x : float) : is_finite x = true -> F32.sub x x = S754_zero false.
Proof.
  destruct x as [[]|s| |s m e]; try discriminate; intros _; try reflexivity.
  unfold F32.sub, SFsub. rewrite Z.sub_diag. reflexivity.
Qed.

Lemma div_by_zero (a : float) (s : bool) :
  F32.div a (S754_zero s) = NaN \/
  exists sg, F32.div a (S754_zero s) = S754_infinity sg.
Proof.
  destruct a as [sa|sa| |sa ma ea]; cbn; eauto.
Qed.

Lemma infinity_is_off_screen (sg : bool) :
  F32.ltb (S754_infinity sg) f0 || F32.gtb (S754_infinity sg) f1 = true.
Proof. destruct sg; reflexivity. Qed.

(** X4.  On a rectangle of no width ([x1 = x0], finite) or of no height
    ([y1 = y0]), the division is by zero: the call returns 0 with the
    pointer unchanged, or it stores a NaN in that coordinate.  It never
    stores a number there. *)
Theorem degenerate_rectangle_gives_no_coordinate :
  forall (libm : Libm) (pose : XrPosef) (cx cx' cy cy' depth : float)
         (mouse : float * float),
    is_finite cx = true -> is_finite cy = true ->
    (let out := pose_to_pointer pose cx cx cy cy' depth mouse in
     out = (0, mouse) \/ (fst out = 1 /\ fst (snd out) = NaN)) /\
    (let out := pose_to_pointer pose cx cx' cy cy depth mouse in
     out = (0, mouse) \/ (fst out = 1 /\ snd (snd out) = NaN)).
Proof.
  intros libm pose cx cx' cy cy' depth mouse Hx Hy. split.
  - cbv zeta. unfold pose_to_pointer.
    set (r := pose_result pose cx cx cy cy' depth).
    assert (Hr : fst r = NaN \/ exists sg, fst r = S754_infinity sg).
    { unfold r, pose_result. cbn [fst]. rewrite (sub_self cx Hx).
      apply div_by_zero. }
    destruct Hr as [Hr|[sg Hr]].
    + destruct (off_screen r); [now left|].
      destruct (differs r mouse); [right|now left]. now split.
    + left. unfold off_screen. rewrite Hr.
      pose proof (infinity_is_off_screen sg) as H.
      rewrite H. reflexivity.
  - cbv zeta. unfold pose_to_pointer.
    set (r := pose_result pose cx cx' cy cy depth).
    assert (Hr : snd r = NaN \/ exists sg, snd r = S754_infinity sg).
    { unfold r, pose_result. cbn [snd]. rewrite (sub_self cy Hy).
      apply div_by_zero. }
    destruct Hr as [Hr|[sg Hr]].
    + destruct (off_screen r); [now left|].
      destruct (differs r mouse); [right|now left]. now split.
    + left. unfold off_screen. rewrite Hr.
      pose proof (infinity_is_off_screen sg) as H.
      rewrite <- orb_assoc, H, orb_true_r. reflexivity.
Qed.

(** Both corners at the origin of the plane, the device one unit to the
    right: the X candidate is infinite and nothing is stored; the device at
    the corner: a NaN is stored. *)
Lemma degenerate_rectangle_gives_no_coordinate_witness :
  pose_to_pointer (libm := libm_ref) (pose_at identity f1 f0 f5)
                  f0 f0 f0 f1 f5 (f0, f0) = (0, (f0, f0)) /\
  fst (snd (pose_to_pointer (libm := libm_ref) (pose_at identity f0 f0 f5)
                            f0 f0 f0 f1 f5 (f0, f0))) = NaN.
Proof.
  split.
  - destruct (degenerate_rectangle_gives_no_coordinate libm_ref
                (pose_at identity f1 f0 f5) f0 f1 f0 f1 f5 (f0, f0)
                eq_refl eq_refl) as [[E|[E _]] _]; [exact E|].
    vm_compute in E. discriminate.
  - destruct (degenerate_rectangle_gives_no_coordinate libm_ref
                (pose_at identity f0 f0 f5) f0 f1 f0 f1 f5 (f0, f0)
                eq_refl eq_refl) as [[E|[_ E]] _]; [|exact E].
    vm_compute in E. discriminate.
Defined.


(** ** The loop beyond the claims *)

Section RunFacts.
Context {libm : Libm}.

(** The four ways through the loop body. *)
Lemma tick_shape (s : loop_state) (smp : sample) :
  (all_succeeded smp = true /\ tick s smp = dispatch s smp) \/
  (all_succeeded smp = false /\
   ((exists c r, tick s smp = fail_call c r) \/
    (sync_res smp = XR_SESSION_NOT_FOCUSED /\ tick s smp = stay s) \/
    (sync_res smp = XR_SESSION_LOSS_PENDING /\
     tick s smp = {| next := Some (stopped s); written := [];
                     printed := [SessionLost] |}))).
Proof.
  unfold all_succeeded, tick.
  destruct (sync_res smp); cbn [is_success andb negb];
    [|right; split; auto..|right; split; eauto].
  destruct (time_res smp); cbn [is_success andb negb];
    try (right; split; eauto; fail).
  destruct (locate_res smp); cbn [is_success andb negb];
    try (right; split; eauto; fail).
  destruct (fire_res smp); cbn [is_success andb negb];
    try (right; split; eauto; fail).
  destruct (pedal_res smp); cbn [is_success andb negb];
    try (right; split; eauto; fail).
  destruct (pause_res smp); cbn [is_success andb negb];
    try (right; split; eauto; fail).
  left. auto.
Qed.

(** Outside the playing phase an iteration writes nothing. *)
Lemma recording_writes_nothing (s : loop_state) (smp : sample) :
  state s <> PLAYING -> written (tick s smp) = [].
Proof.
  intros Hs.
  destruct (tick_shape s smp) as [[_ E]|[_ [(c & r & E)|[[_ E]|[_ E]]]]];
    rewrite E; try reflexivity.
  unfold dispatch, record_topleft, record_bottomright.
  destruct (state s); [| |congruence];
    destruct (pressed_now (fireState smp)); reflexivity.
Qed.

(** The last state of a trace, through its first iteration. *)
Lemma last_trace_step (smp : sample) (rest : list sample) (s s' : loop_state) :
  run s <> 0 -> next (tick s smp) = Some s' ->
  last (loop_trace (smp :: rest) s) s = last (loop_trace rest s') s'.
Proof.
  intros Hr E. cbn [loop_trace]. apply Z.eqb_neq in Hr. rewrite Hr, E.
  destruct (loop_trace_head rest s') as [tl Etl]. rewrite Etl.
  change (last (s :: s' :: tl) s) with (last (s' :: tl) s).
  apply last_of_cons.
Qed.

(** A property kept by every iteration holds along the trace. *)
Lemma trace_invariant (P : loop_state -> Prop) :
  (forall s smp s', P s -> next (tick s smp) = Some s' -> P s') ->
  forall samples s, P s -> Forall P (loop_trace samples s).
Proof.
  intros Hstep. induction samples as [|smp rest IH]; intros s Hs;
    cbn [loop_trace]; constructor; auto.
  - destruct (run s =? 0); constructor.
  - destruct (run s =? 0); [constructor|].
    destruct (next (tick s smp)) as [s'|] eqn:E; [|constructor].
    apply IH. apply (Hstep s smp s' Hs E).
Qed.

(** What an iteration can do to [run]: nothing, or put it to 0 for one of
    two reasons. *)
Lemma tick_run (s s' : loop_state) (smp : sample) :
  next (tick s smp) = Some s' ->
  run s' = run s \/
  (run s' = 0 /\
   (sync_res smp = XR_SESSION_LOSS_PENDING \/
    (state s = PLAYING /\ all_succeeded smp = true /\ quit_chord smp = true))).
Proof.
  destruct (tick_shape s smp) as [[Hok E]|[_ [(c & r & E)|[[_ E]|[Hl E]]]]];
    rewrite E; cbn [next fail_call stay]; try discriminate.
  - unfold dispatch. destruct (state s) eqn:Es.
    + unfold record_topleft. destruct (pressed_now _); intros [= <-]; now left.
    + unfold record_bottomright. destruct (pressed_now _); intros [= <-]; now left.
    + unfold playing. destruct (pose_to_pointer _ _ _ _ _ _ _).
      intros [= <-]. cbn [run]. fold (quit_chord smp).
      destruct (quit_chord smp); [right|left]; auto.
  - intros [= <-]. now left.
  - intros [= <-]. right. auto.
Qed.

End RunFacts.

(** X5.  Nothing reaches the virtual device before the calibration is
    complete: along a run that has not come to the playing phase, whatever
    the buttons did, no event was written. *)
Theorem nothing_is_written_before_playing :
  forall (libm : Libm) (g : float * float * float * float * float)
         (samples : list sample),
    state (state_after samples (initial g)) <> PLAYING ->
    loop_written samples (initial g) = [].
Proof.
  intros libm g samples. unfold state_after. generalize (initial g).
  induction samples as [|smp rest IH]; intros s Hlast; cbn [loop_written].
  - destruct (run s =? 0); reflexivity.
  - destruct (run s =? 0) eqn:Hr; [reflexivity|]. apply Z.eqb_neq in Hr.
    assert (Hs : state s <> PLAYING).
    { intros Hp. apply Hlast.
      pose proof (trace_frozen (smp :: rest) s Hp) as F.
      rewrite Forall_forall in F. apply F.
      destruct (loop_trace_head (smp :: rest) s) as [tl ->].
      clear. revert s. induction tl as [|a tl IH]; intros s; [now left|].
      right. change (In (last (a :: tl) s) (a :: tl)).
      rewrite (last_of_cons a tl s a). apply IH. }
    rewrite (recording_writes_nothing s smp Hs). cbn [app].
    destruct (next (tick s smp)) as [s'|] eqn:E; [|reflexivity].
    apply IH. rewrite <- (last_trace_step smp rest s s' Hr E). exact Hlast.
Qed.

(** The first corner captured, fire released and pressed about: no second
    capture has happened when the samples end. *)
Lemma nothing_is_written_before_playing_witness :
  loop_written (libm := libm_ref)
    [sample_of corner1 press press press; sample_of corner1 release release idle]
    (initial garbage) = [].
Proof.
  apply (nothing_is_written_before_playing libm_ref garbage).
  vm_compute. discriminate.
Defined.

(** X6.  The press of fire that captures the second corner is not sent to
    the device, and the release that follows it is: the first button event
    of the playing phase is then BTN_LEFT up, with no BTN_LEFT down before
    it. *)
Theorem capture_press_is_kept_and_its_release_sent :
  forall (libm : Libm) (s : loop_state) (smp1 smp2 : sample),
    state s = RECORDING_BOTTOMRIGHT ->
    all_succeeded smp1 = true -> pressed_now (fireState smp1) = true ->
    all_succeeded smp2 = true ->
    changedSinceLastSync (fireState smp2) = true ->
    currentState (fireState smp2) = false ->
    written (tick s smp1) = [] /\
    exists s1 rest,
      next (tick s smp1) = Some s1 /\
      written (tick s1 smp2) = key BTN_LEFT false :: rest.
Proof.
  intros libm s smp1 smp2 Hs H1 P1 H2 Hc Hv.
  destruct (tick_record_bottomright s smp1 H1 Hs P1)
    as (T & s1 & E & Hs1 & _ & _ & _ & _ & _ & _ & W).
  rewrite T. split; [exact W|]. exists s1.
  rewrite (tick_all_succeeded s1 smp2 H2). unfold dispatch. rewrite Hs1.
  unfold playing. destruct (pose_to_pointer _ _ _ _ _ _ _).
  cbn [written]. unfold key_event at 1. rewrite Hc, Hv.
  eexists. split; [exact E|reflexivity].
Qed.

(** The scenario of the specification, the trigger released at the second
    corner. *)
Lemma capture_press_is_kept_and_its_release_sent_witness :
  loop_written (libm := libm_ref)
    (calibrate corner1 corner2 ++ [sample_of corner2 release idle idle])
    (initial garbage)
  = [key BTN_LEFT false; abs_at ABS_X 1920; abs_at ABS_Y 1080; syn_event].
Proof.
  destruct (capture_press_is_kept_and_its_release_sent libm_ref
              (state_after (libm := libm_ref)
                 [sample_of corner1 press idle idle;
                  sample_of corner1 release idle idle] (initial garbage))
              (sample_of corner2 press idle idle)
              (sample_of corner2 release idle idle)
              eq_refl eq_refl eq_refl eq_refl eq_refl eq_refl)
    as (_ & s1 & rest & E & W).
  vm_compute in E. injection E as <-.
  vm_compute. reflexivity.
Defined.

(** X7.  [XR_SESSION_LOSS_PENDING] ends the loop in every phase: the
    iteration puts [run] to 0 and touches nothing else, writes nothing,
    prints its one line, and no later sample is looked at. *)
Theorem session_loss_ends_the_loop :
  forall (libm : Libm) (s : loop_state) (smp : sample) (rest : list sample),
    run s <> 0 ->
    sync_res smp = XR_SESSION_LOSS_PENDING ->
    loop_trace (smp :: rest) s = [s; stopped s] /\
    loop_ends (smp :: rest) s = Finished /\
    loop_written (smp :: rest) s = [] /\
    loop_printed (smp :: rest) s = [SessionLost].
Proof.
  intros libm s smp rest Hr Hl. apply Z.eqb_neq in Hr.
  assert (E : tick s smp = {| next := Some (stopped s); written := [];
                              printed := [SessionLost] |})
    by (unfold tick; rewrite Hl; reflexivity).
  cbn [loop_trace loop_ends loop_written loop_printed].
  rewrite Hr, E. cbn [next written printed app].
  destruct rest; cbn; repeat split; reflexivity.
Qed.

(** The session lost while the first corner is awaited, a press of fire
    coming after it. *)
Lemma session_loss_ends_the_loop_witness :
  loop_ends (libm := libm_ref)
    [ {| sync_res := XR_SESSION_LOSS_PENDING; time_res := XR_SUCCESS;
         locate_res := XR_SUCCESS; fire_res := XR_SUCCESS;
         pedal_res := XR_SUCCESS; pause_res := XR_SUCCESS;
         aimState := corner1; fireState := idle; pedalState := idle;
         pauseState := idle |};
      sample_of corner1 press idle idle ]
    (initial garbage) = Finished.
Proof.
  apply (session_loss_ends_the_loop libm_ref (initial garbage)).
  - vm_compute. discriminate.
  - reflexivity.
Defined.

(** With [run] at 0 the loop is over before it looks at a sample. *)
Lemma loop_stopped {libm : Libm} (samples : list sample) (s : loop_state) :
  run s = 0 ->
  loop_trace samples s = [s] /\ loop_ends samples s = Finished /\
  loop_written samples s = [] /\ loop_printed samples s = [].
Proof.
  intros Hr. apply Z.eqb_eq in Hr.
  destruct samples; cbn; rewrite Hr; repeat split.
Qed.

(** The loop through its first iteration, when it goes on. *)
Lemma loop_step {libm : Libm} (smp : sample) (rest : list sample)
    (s s' : loop_state) :
  run s <> 0 -> next (tick s smp) = Some s' ->
  last (loop_trace (smp :: rest) s) s = last (loop_trace rest s') s' /\
  loop_ends (smp :: rest) s = loop_ends rest s' /\
  loop_written (smp :: rest) s = written (tick s smp) ++ loop_written rest s' /\
  loop_printed (smp :: rest) s = printed (tick s smp) ++ loop_printed rest s'.
Proof.
  intros Hr E. split; [apply last_trace_step; assumption|].
  apply Z.eqb_neq in Hr. cbn [loop_ends loop_written loop_printed].
  rewrite Hr, E. repeat split.
Qed.

(** X8.  A sample answered [XR_SESSION_NOT_FOCUSED] is skipped whole:
    taking such samples out of a run changes neither the state it ends in,
    nor how it ends, nor what it writes or prints. *)
Theorem unfocused_samples_are_skipped :
  forall (libm : Libm) (samples : list sample) (s : loop_state),
    state_after (filter focused samples) s = state_after samples s /\
    loop_ends (filter focused samples) s = loop_ends samples s /\
    loop_written (filter focused samples) s = loop_written samples s /\
    loop_printed (filter focused samples) s = loop_printed samples s.
Proof.
  intros libm samples. unfold state_after.
  induction samples as [|smp rest IH]; intros s; [repeat split|].
  destruct (Z.eq_dec (run s) 0) as [Hr|Hr].
  { destruct (loop_stopped (filter focused (smp :: rest)) s Hr)
      as (A1 & A2 & A3 & A4).
    destruct (loop_stopped (smp :: rest) s Hr) as (B1 & B2 & B3 & B4).
    rewrite A1, A2, A3, A4, B1, B2, B3, B4. repeat split. }
  cbn [filter]. destruct (focused smp) eqn:Ef.
  - destruct (next (tick s smp)) as [s'|] eqn:E.
    + destruct (loop_step smp rest s s' Hr E) as (B1 & B2 & B3 & B4).
      destruct (loop_step smp (filter focused rest) s s' Hr E)
        as (A1 & A2 & A3 & A4).
      destruct (IH s') as (I1 & I2 & I3 & I4).
      rewrite A1, A2, A3, A4, B1, B2, B3, B4, I1, I2, I3, I4. repeat split.
    + apply Z.eqb_neq in Hr.
      cbn [loop_trace loop_ends loop_written loop_printed].
      rewrite Hr, E. repeat split.
  - assert (E : tick s smp = stay s).
    { unfold focused in Ef. unfold tick.
      destruct (sync_res smp); try discriminate. reflexivity. }
    assert (E' : next (tick s smp) = Some s) by (rewrite E; reflexivity).
    destruct (loop_step smp rest s s Hr E') as (B1 & B2 & B3 & B4).
    destruct (IH s) as (I1 & I2 & I3 & I4).
    rewrite B1, B2, B3, B4, I1, I2, I3, I4, E. repeat split.
Qed.

(** X9.  When [xrSyncActions] succeeded and one of the five queries after
    it did not, the iteration is abandoned before the buttons are looked
    at: the loop is left through [cleanup], nothing is written, neither
    then nor after, and the only line printed names the failed call. *)
Theorem failed_query_abandons_the_iteration :
  forall (libm : Libm) (s : loop_state) (smp : sample) (rest : list sample),
    run s <> 0 ->
    sync_res smp = XR_SUCCESS ->
    all_succeeded smp = false ->
    loop_ends (smp :: rest) s = Jumped /\
    loop_written (smp :: rest) s = [] /\
    exists c r, r <> XR_SUCCESS /\ loop_printed (smp :: rest) s = [CallFailed c r].
Proof.
  intros libm s smp rest Hr Hs Hf. apply Z.eqb_neq in Hr.
  assert (E : exists c r, r <> XR_SUCCESS /\ tick s smp = fail_call c r).
  { unfold all_succeeded in Hf. unfold tick. rewrite Hs in *.
    cbn [is_success andb] in Hf.
    destruct (time_res smp) eqn:E1; cbn [is_success negb andb] in *;
      try (eexists; eexists; split; [|reflexivity]; discriminate).
    destruct (locate_res smp) eqn:E2; cbn [is_success negb andb] in *;
      try (eexists; eexists; split; [|reflexivity]; discriminate).
    destruct (fire_res smp) eqn:E3; cbn [is_success negb andb] in *;
      try (eexists; eexists; split; [|reflexivity]; discriminate).
    destruct (pedal_res smp) eqn:E4; cbn [is_success negb andb] in *;
      try (eexists; eexists; split; [|reflexivity]; discriminate).
    destruct (pause_res smp) eqn:E5; cbn [is_success negb andb] in *;
      try (eexists; eexists; split; [|reflexivity]; discriminate).
    discriminate. }
  destruct E as (c & r & Hne & E).
  cbn [loop_ends loop_written loop_printed]. rewrite Hr, E.
  cbn [next written printed fail_call app].
  repeat split. exists c, r. split; [exact Hne|reflexivity].
Qed.

(** The pose cannot be located in the iteration in which fire is pressed
    at the first corner: no corner is recorded. *)
Lemma failed_query_abandons_the_iteration_witness :
  loop_ends (libm := libm_ref)
    [ {| sync_res := XR_SUCCESS; time_res := XR_SUCCESS;
         locate_res := XR_OTHER (-1); fire_res := XR_SUCCESS;
         pedal_res := XR_SUCCESS; pause_res := XR_SUCCESS;
         aimState := corner1; fireState := press; pedalState := idle;
         pauseState := idle |} ]
    (initial garbage) = Jumped.
Proof.
  apply (failed_query_abandons_the_iteration libm_ref (initial garbage)).
  - vm_compute. discriminate.
  - reflexivity.
  - reflexivity.
Defined.

Lemma key_event_well_formed (c : ev_code) (b : XrActionStateBoolean) :
  (c = BTN_LEFT \/ c = KEY_Z \/ c = KEY_C) ->
  Forall (fun e => well_formed e = true) (key_event c b) /\
  (length (key_event c b) <= 1)%nat.
Proof.
  intros Hc. unfold key_event.
  destruct (changedSinceLastSync b); [|split; [constructor|cbn; lia]].
  split; [|cbn; lia]. constructor; [|constructor].
  destruct Hc as [->|[->| ->]]; destruct (currentState b); reflexivity.
Qed.

(** Every event of one iteration is one the device was set up for, and
    there are six at most. *)
Lemma tick_written_well_formed {libm : Libm} (s : loop_state) (smp : sample) :
  Forall (fun e => well_formed e = true) (written (tick s smp)) /\
  (length (written (tick s smp)) <= 6)%nat.
Proof.
  destruct (tick_shape s smp) as [[_ E]|[_ [(c & r & E)|[[_ E]|[_ E]]]]];
    rewrite E; try (split; [constructor|cbn; lia]).
  unfold dispatch. destruct (state s).
  - unfold record_topleft. destruct (pressed_now _);
      (split; [constructor|cbn; lia]).
  - unfold record_bottomright. destruct (pressed_now _);
      (split; [constructor|cbn; lia]).
  - unfold playing. destruct (pose_to_pointer _ _ _ _ _ _ _) as [moved m].
    cbn [written].
    destruct (key_event_well_formed BTN_LEFT (fireState smp)) as [F1 L1]; auto.
    destruct (key_event_well_formed KEY_Z (pedalState smp)) as [F2 L2]; auto.
    destruct (key_event_well_formed KEY_C (pauseState smp)) as [F3 L3]; auto.
    split.
    + repeat (apply Forall_app; split); try assumption.
      * destruct (negb (moved =? 0)); repeat constructor.
      * destruct (negb (_ =? 0)); repeat constructor.
    + rewrite !length_app.
      assert (length (if negb (Z.eqb moved 0) then abs_events m else []) <= 2)%nat
        by (destruct (negb (Z.eqb moved 0)); cbn; lia).
      match goal with
      | |- context [length (if ?b then [syn_event] else [])] =>
          assert (length (if b then [syn_event] else []) <= 1)%nat
            by (destruct b; cbn; lia)
      end.
      lia.
Qed.

Lemma loop_written_well_formed {libm : Libm} (samples : list sample) :
  forall s, Forall (fun e => well_formed e = true) (loop_written samples s).
Proof.
  induction samples as [|smp rest IH]; intros s; cbn [loop_written].
  - destruct (run s =? 0); constructor.
  - destruct (run s =? 0); [constructor|].
    apply Forall_app. split; [apply tick_written_well_formed|].
    destruct (next (tick s smp)); [apply IH|constructor].
Qed.

(** X10.  Every event the loop writes is one the device was set up for -
    EV_KEY on BTN_LEFT, KEY_Z or KEY_C with value 0 or 1, EV_ABS on ABS_X
    or ABS_Y, EV_SYN / SYN_REPORT with value 0 - and one iteration writes
    six events at most. *)
Theorem written_events_are_well_formed :
  forall (libm : Libm) (samples : list sample) (s : loop_state),
    Forall (fun e => well_formed e = true) (loop_written samples s) /\
    (forall smp, length (written (tick s smp)) <= 6)%nat.
Proof.
  intros libm samples s. split; [apply loop_written_well_formed|].
  intros smp. apply tick_written_well_formed.
Qed.

(** X11.  The iteration that quits still does its work: when fire is
    pressed while pause is down, in the playing phase, the press is written
    with the rest of the batch and its barrier, and the loop is over; no
    sample after it is looked at, so no release of that press is ever
    written. *)
Theorem quit_iteration_is_written_and_last :
  forall (libm : Libm) (g : float * float * float * float * float)
         (before : list sample) (s : loop_state) (smp : sample)
         (rest : list sample),
    In s (loop_trace before (initial g)) ->
    state s = PLAYING -> run s <> 0 ->
    all_succeeded smp = true ->
    pressed_now (fireState smp) = true ->
    currentState (pauseState smp) = true ->
    loop_ends (smp :: rest) s = Finished /\
    exists evs,
      loop_written (smp :: rest) s = key BTN_LEFT true :: evs ++ [syn_event].
Proof.
  intros libm g before s smp rest Hin Hs Hr Hok Hp Hq.
  assert (Hz : sync s = 0).
  { pose proof (trace_sync_zero before (initial g)) as F.
    rewrite Forall_forall in F. apply F; [|exact Hin].
    destruct g as [[[[? ?] ?] ?] ?]. reflexivity. }
  apply Z.eqb_neq in Hr. apply andb_prop in Hp as [Hc Hd].
  cbn [loop_ends loop_written]. rewrite Hr.
  rewrite (tick_all_succeeded s smp Hok). unfold dispatch. rewrite Hs.
  unfold playing. destruct (pose_to_pointer _ _ _ _ _ _ _) as [moved m].
  cbn [next written]. rewrite Hc, Hq, Hd. cbn [andb].
  assert (Hstop : forall s', run s' = 0 ->
            loop_ends rest s' = Finished /\ loop_written rest s' = []).
  { intros s' H0. destruct (loop_stopped rest s' H0) as (_ & A & B & _). auto. }
  match goal with
  | |- loop_ends rest ?s' = _ /\ _ =>
      destruct (Hstop s' eq_refl) as [A B]; rewrite A, B
  end.
  split; [reflexivity|].
  unfold key_event at 1. rewrite Hd, Hc. cbn [Z.b2z app].
  assert (F : (if negb ((if negb (moved =? 0) then 1
                         else if changedSinceLastSync (pauseState smp) then 1
                              else if changedSinceLastSync (pedalState smp)
                                   then 1 else 1) =? 0)
               then [syn_event] else []) = [syn_event]).
  { destruct (negb (moved =? 0)), (changedSinceLastSync (pauseState smp)),
             (changedSinceLastSync (pedalState smp)); reflexivity. }
  rewrite F, app_nil_r. unfold key. cbn [Z.b2z].
  exists ((key_event KEY_Z (pedalState smp) ++ key_event KEY_C (pauseState smp)) ++
          (if negb (moved =? 0) then abs_events m else [])).
  rewrite <- !app_assoc. reflexivity.
Qed.

(** After the calibration of the scenario: pause pressed and held, then
    fire pressed, then both released. *)
Lemma quit_iteration_is_written_and_last_witness :
  loop_ends (libm := libm_ref)
    [sample_of corner2 press idle held; sample_of corner2 release idle release]
    (state_after (libm := libm_ref)
       (calibrate corner1 corner2 ++
        [sample_of corner2 release idle press]) (initial garbage))
  = Finished.
Proof.
  apply (quit_iteration_is_written_and_last libm_ref garbage
           (calibrate corner1 corner2 ++ [sample_of corner2 release idle press])).
  - in_trace.
  - reflexivity.
  - vm_compute. discriminate.
  - reflexivity.
  - reflexivity.
  - reflexivity.
Defined.

(** X12.  The pointer is not touched before the playing phase: at the head
    of every iteration in a recording phase it still holds (0, 0), and it
    holds (0, 0) after that iteration too, the one that completes the
    calibration included. *)
Theorem pointer_is_untouched_while_recording :
  forall (libm : Libm) (g : float * float * float * float * float)
         (samples : list sample) (s : loop_state),
    In s (loop_trace samples (initial g)) ->
    state s <> PLAYING ->
    (mouseX s, mouseY s) = (f0, f0) /\
    forall smp s', next (tick s smp) = Some s' ->
                   (mouseX s', mouseY s') = (f0, f0).
Proof.
  intros libm g samples s Hin Hs.
  assert (H : (mouseX s, mouseY s) = (f0, f0)).
  { pose proof (trace_invariant
                  (fun s => state s <> PLAYING -> (mouseX s, mouseY s) = (f0, f0)))
      as T.
    assert (F : Forall (fun s => state s <> PLAYING ->
                                 (mouseX s, mouseY s) = (f0, f0))
                       (loop_trace samples (initial g))).
    { apply T.
      - intros s0 smp s' Hinv E Hs'.
        assert (Hs0 : state s0 <> PLAYING).
        { intros Hp.
          destruct (phase_step_playing s0 s' (tick_phase_step _ _ _ E) Hp).
          contradiction. }
        destruct (recording_keeps_pointer s0 s' smp Hs0 E) as [-> ->].
        apply Hinv, Hs0.
      - intros _. destruct g as [[[[? ?] ?] ?] ?]. reflexivity. }
    rewrite Forall_forall in F. apply (F s Hin Hs). }
  split; [exact H|]. intros smp s' E.
  destruct (recording_keeps_pointer s s' smp Hs E) as [-> ->]. exact H.
Qed.

(** The second corner of the scenario is being awaited. *)
Lemma pointer_is_untouched_while_recording_witness :
  let s := state_after (libm := libm_ref)
             [sample_of corner1 press idle idle] (initial garbage) in
  (mouseX s, mouseY s) = (f0, f0).
Proof.
  apply (pointer_is_untouched_while_recording libm_ref garbage
           [sample_of corner1 press idle idle]).
  - in_trace.
  - vm_compute. discriminate.
Defined.

(** X13.  The calibration records where the device is, not where it
    points: in the recording phases an iteration does not depend on the
    orientation of the pose, nor on libm. *)
Theorem calibration_ignores_orientation :
  forall (libm libm' : Libm) (s : loop_state) (smp : sample)
         (q : XrQuaternionf),
    state s <> PLAYING ->
    tick (libm := libm) s (with_orientation q smp)
    = tick (libm := libm') s smp.
Proof.
  intros libm libm' s smp q Hs. unfold tick, with_orientation.
  cbn [sync_res time_res locate_res fire_res pedal_res pause_res].
  destruct (sync_res smp); try reflexivity.
  repeat (match goal with
          | |- context [if ?b then fail_call _ _ else _] =>
              destruct b; [reflexivity|]
          end).
  unfold dispatch. destruct (state s); [reflexivity|reflexivity|congruence].
Qed.

(** The first corner pressed with the device turned a quarter. *)
Lemma calibration_ignores_orientation_witness :
  tick (libm := libm_ref) (initial garbage)
       (sample_of (pose_at quarter_turn fm1 f1 f5) press idle idle)
  = tick (libm := libm_down) (initial garbage)
         (sample_of corner1 press idle idle).
Proof.
  apply (calibration_ignores_orientation libm_ref libm_down (initial garbage)
           (sample_of corner1 press idle idle) quarter_turn).
  vm_compute. discriminate.
Defined.

(** Why a loop that was running is over. *)
Lemma finished_cause {libm : Libm} (samples : list sample) :
  forall s,
    run s <> 0 ->
    loop_ends samples s = Finished ->
    exists pre smp post,
      samples = pre ++ smp :: post /\
      run (state_after pre s) <> 0 /\
      (sync_res smp = XR_SESSION_LOSS_PENDING \/
       (state (state_after pre s) = PLAYING /\
        all_succeeded smp = true /\ quit_chord smp = true)).
Proof.
  unfold state_after.
  induction samples as [|smp rest IH]; intros s Hr Hf.
  - cbn in Hf. apply Z.eqb_neq in Hr. rewrite Hr in Hf. discriminate.
  - destruct (next (tick s smp)) as [s'|] eqn:E.
    + destruct (loop_step smp rest s s' Hr E) as (_ & L & _).
      rewrite L in Hf.
      destruct (Z.eq_dec (run s') 0) as [H0|H1].
      * exists [], smp, rest. split; [reflexivity|].
        assert (Hl : last (loop_trace [] s) s = s)
          by (cbn; destruct (run s =? 0); reflexivity).
        rewrite Hl. split; [exact Hr|].
        destruct (tick_run s s' smp E) as [Hsame|[_ Hwhy]];
          [congruence|exact Hwhy].
      * destruct (IH s' H1 Hf) as (pre & smp' & post & -> & Hrun & Hwhy).
        exists (smp :: pre), smp', post. split; [reflexivity|].
        rewrite (last_trace_step smp pre s s' Hr E). auto.
    + apply Z.eqb_neq in Hr. cbn [loop_ends] in Hf.
      rewrite Hr, E in Hf. discriminate.
Qed.

(** X14.  The loop is left through its condition for two reasons only: a
    sample answered [XR_SESSION_LOSS_PENDING], or, in the playing phase,
    a sample with fire and pause both down.  Nothing else puts [run]
    to 0. *)
Theorem loop_finishes_by_loss_or_quit_only :
  forall (libm : Libm) (samples : list sample) (s : loop_state),
    run s <> 0 ->
    loop_ends samples s = Finished ->
    exists pre smp post,
      samples = pre ++ smp :: post /\
      run (state_after pre s) <> 0 /\
      (sync_res smp = XR_SESSION_LOSS_PENDING \/
       (state (state_after pre s) = PLAYING /\
        all_succeeded smp = true /\ quit_chord smp = true)).
Proof. intros libm samples s. apply finished_cause. Qed.

(** The session of the scenario, ended by the chord. *)
Lemma loop_finishes_by_loss_or_quit_only_witness :
  exists pre smp post,
    calibrate corner1 corner2 ++ [sample_of corner2 held idle press]
      = pre ++ smp :: post /\
    run (state_after (libm := libm_ref) pre (initial garbage)) <> 0 /\
    (sync_res smp = XR_SESSION_LOSS_PENDING \/
     (state (state_after (libm := libm_ref) pre (initial garbage)) = PLAYING /\
      all_succeeded smp = true /\ quit_chord smp = true)).
Proof.
  apply (loop_finishes_by_loss_or_quit_only libm_ref
           (calibrate corner1 corner2 ++ [sample_of corner2 held idle press])
           (initial garbage)).
  - vm_compute. discriminate.
  - vm_compute. reflexivity.
Defined.


(** ** [main] *)

Section MainFacts.
Context {libm : Libm}.

Lemma first_failure_none (res : setup_call -> XrResult)
    (calls : list (Z * setup_call)) :
  first_failure res calls = None ->
  forall code c, In (code, c) calls -> res c = XR_SUCCESS.
Proof.
  induction calls as [|[k d] rest IH]; intros H code c Hin; [contradiction|].
  cbn in H. destruct (is_success (res d)) eqn:E; [|discriminate].
  destruct Hin as [[= <- <-]|Hin].
  - destruct (res d); try discriminate. reflexivity.
  - apply (IH H code c Hin).
Qed.

Lemma first_failure_some (res : setup_call -> XrResult)
    (calls : list (Z * setup_call)) (code : Z) (c : setup_call) :
  first_failure res calls = Some (code, c) ->
  In (code, c) calls /\ res c <> XR_SUCCESS.
Proof.
  induction calls as [|[k d] rest IH]; [discriminate|]. cbn.
  destruct (is_success (res d)) eqn:E.
  - intros H. destruct (IH H). split; [now right|assumption].
  - intros [= <- <-]. split; [now left|].
    intros H. rewrite H in E. discriminate.
Qed.

Lemma wait_for_session_failed (evs : list (XrResult * bool)) (r : XrResult) :
  wait_for_session evs = PollFailed r -> r <> XR_SUCCESS.
Proof.
  induction evs as [|[res changed] rest IH]; [discriminate|]. cbn.
  destruct (is_success res) eqn:E.
  - destruct changed; [discriminate|exact IH].
  - intros [= <-]. intros H. rewrite H in E. discriminate.
Qed.

(** A loop left through [cleanup] printed the failed call last. *)
Lemma jumped_prints_the_call (samples : list sample) :
  forall s, loop_ends samples s = Jumped ->
    exists lines c r, loop_printed samples s = lines ++ [CallFailed c r].
Proof.
  induction samples as [|smp rest IH]; intros s H; cbn [loop_ends loop_printed] in *.
  - destruct (run s =? 0); discriminate.
  - destruct (run s =? 0); [discriminate|].
    destruct (next (tick s smp)) as [s'|] eqn:E.
    + destruct (IH s' H) as (lines & c & r & ->).
      exists (printed (tick s smp) ++ lines), c, r. apply app_assoc.
    + destruct (tick_shape s smp) as [[_ T]|[_ [(c & r & T)|[[_ T]|[_ T]]]]];
        rewrite T in E |- *; try discriminate.
      * exfalso. revert E. unfold dispatch, record_topleft, record_bottomright.
        destruct (state s); try (destruct (pressed_now _); discriminate).
        destruct (playing_next s smp) as (s1 & E1 & _). rewrite E1. discriminate.
      * exists [], c, r. reflexivity.
Qed.

End MainFacts.

(** X15.  When uinput was opened, [main] returns 0 only after a loop that
    ended for one of its two reasons: every call before the loop succeeded,
    and the samples hold one answered [XR_SESSION_LOSS_PENDING], or one
    with fire and pause both down met in the playing phase. *)
Theorem main_returns_zero_after_loss_or_quit :
  forall (libm : Libm) (w : world),
    uinput_fd w <> -1 ->
    returned (main w) = Some 0 ->
    instance_res w = XR_SUCCESS /\
    (forall code c, In (code, c) set_up_calls -> setup_res w c = XR_SUCCESS) /\
    setup_res w xrBeginSession = XR_SUCCESS /\
    exists pre smp post,
      loop_samples w = pre ++ smp :: post /\
      (sync_res smp = XR_SESSION_LOSS_PENDING \/
       (state (state_after pre (initial (uninitialised w))) = PLAYING /\
        all_succeeded smp = true /\ quit_chord smp = true)).
Proof.
  intros libm w Hfd. unfold main. apply Z.eqb_neq in Hfd. rewrite Hfd.
  destruct (instance_res w) eqn:Ei; cbn [is_success negb returned];
    try discriminate.
  unfold after_instance.
  destruct (first_failure (setup_res w) set_up_calls) as [[code c]|] eqn:Ef.
  { cbn [returned]. intros [= ->].
    destruct (first_failure_some _ _ _ _ Ef) as [Hin _].
    cbn in Hin. repeat (destruct Hin as [Hin|Hin]; [discriminate|]).
    contradiction. }
  destruct (wait_for_session (polled w)); cbn [returned]; try discriminate.
  destruct (setup_res w xrBeginSession) eqn:Eb; cbn [is_success negb returned];
    try discriminate.
  destruct (loop_ends (loop_samples w) (initial (uninitialised w))) eqn:El;
    cbn [returned]; try discriminate.
  intros _. split; [reflexivity|]. split; [apply (first_failure_none _ _ Ef)|].
  split; [reflexivity|].
  destruct (finished_cause (loop_samples w) (initial (uninitialised w)))
    as (pre & smp & post & E & _ & Hwhy); [|exact El|].
  - destruct (uninitialised w) as [[[[? ?] ?] ?] ?]. cbn. discriminate.
  - exists pre, smp, post. auto.
Qed.

(** The session of the scenario, ended by the chord. *)
Lemma main_returns_zero_after_loss_or_quit_witness :
  exists pre smp post,
    calibrate corner1 corner2 ++ [sample_of corner2 held idle press]
      = pre ++ smp :: post /\
    (sync_res smp = XR_SESSION_LOSS_PENDING \/
     (state (state_after (libm := libm_ref) pre (initial garbage)) = PLAYING /\
      all_succeeded smp = true /\ quit_chord smp = true)).
Proof.
  destruct (main_returns_zero_after_loss_or_quit libm_ref
              (fair_world (calibrate corner1 corner2 ++
                           [sample_of corner2 held idle press])))
    as (_ & _ & _ & H).
  - vm_compute. discriminate.
  - vm_compute. reflexivity.
  - exact H.
Defined.

(** X16.  The device created at start-up is destroyed before [main]
    returns exactly when xrCreateInstance succeeded: every return after it
    goes through [cleanup], where UI_DEV_DESTROY and close come after the
    last write; the return on its failure leaves the device created, with
    -1.  Nothing is written to the device outside the loop. *)
Theorem device_is_destroyed_unless_instance_failed :
  forall (libm : Libm) (w : world) (code : Z),
    uinput_fd w <> -1 ->
    returned (main w) = Some code ->
    if is_success (instance_res w)
    then exists evs,
           uinput (main w)
           = uinput_set_up ++ map write evs ++ [UI_DEV_DESTROY; close]
    else uinput (main w) = uinput_set_up /\ code = -1.
Proof.
  intros libm w code Hfd. unfold main. apply Z.eqb_neq in Hfd. rewrite Hfd.
  destruct (is_success (instance_res w)); cbn [negb].
  2:{ cbn. intros [= <-]. auto. }
  unfold after_instance.
  destruct (first_failure (setup_res w) set_up_calls) as [[k c]|].
  { intros _. exists []. reflexivity. }
  destruct (wait_for_session (polled w)); cbn [returned uinput];
    try discriminate; try (intros _; exists []; reflexivity).
  destruct (negb (is_success (setup_res w xrBeginSession)));
    [intros _; exists []; reflexivity|].
  destruct (loop_ends (loop_samples w) (initial (uninitialised w)));
    cbn [returned uinput]; try discriminate;
    intros _; eexists; reflexivity.
Qed.

(** No runtime: the device stays; a session ended by the chord: it is
    destroyed after the last barrier. *)
Lemma device_is_destroyed_unless_instance_failed_witness :
  uinput (main (libm := libm_ref) no_runtime) = uinput_set_up /\
  exists evs,
    uinput (main (libm := libm_ref)
              (fair_world (calibrate corner1 corner2 ++
                           [sample_of corner2 held idle press])))
    = uinput_set_up ++ map write evs ++ [UI_DEV_DESTROY; close].
Proof.
  split.
  - destruct (device_is_destroyed_unless_instance_failed libm_ref no_runtime (-1))
      as [E _]; [vm_compute; discriminate|reflexivity|exact E].
  - apply (device_is_destroyed_unless_instance_failed libm_ref
             (fair_world (calibrate corner1 corner2 ++
                          [sample_of corner2 held idle press])) 0).
    + vm_compute. discriminate.
    + vm_compute. reflexivity.
Defined.

(** X17.  Whatever the world, every event [main] writes has its type and
    its code among the bits enabled at set-up, before UI_DEV_CREATE. *)
Theorem every_write_was_enabled :
  forall (libm : Libm) (w : world) (e : input_event),
    In (write e) (uinput (main w)) -> enabled uinput_set_up e.
Proof.
  intros libm w e Hin.
  assert (Hw : well_formed e = true).
  { assert (Hl : In e (loop_written (loop_samples w) (initial (uninitialised w)))).
    { revert Hin. unfold main.
      destruct (uinput_fd w =? -1); [contradiction|].
      assert (Hs : ~ In (write e) uinput_set_up).
      { cbn. intros H. repeat (destruct H as [H|H]; [discriminate|]).
        contradiction. }
      assert (Hc : ~ In (write e) clean_up).
      { cbn. intros H. repeat (destruct H as [H|H]; [discriminate|]).
        contradiction. }
      destruct (negb (is_success (instance_res w))); [intros H; contradiction|].
      unfold after_instance.
      destruct (first_failure (setup_res w) set_up_calls) as [[k c]|].
      { cbn [uinput]. rewrite in_app_iff. tauto. }
      destruct (wait_for_session (polled w)); cbn [uinput];
        try (rewrite in_app_iff; tauto); try tauto.
      destruct (negb (is_success (setup_res w xrBeginSession)));
        [cbn [uinput]; rewrite in_app_iff; tauto|].
      assert (Hm : forall l, In (write e) (map write l) -> In e l).
      { intros l H. apply in_map_iff in H as (e' & [= ->] & H). exact H. }
      destruct (loop_ends (loop_samples w) (initial (uninitialised w)));
        cbn [uinput]; rewrite !in_app_iff; intros [H|H]; try tauto;
        try (destruct H as [H|H]; try tauto); apply Hm; assumption. }
    pose proof (loop_written_well_formed (loop_samples w)
                  (initial (uninitialised w))) as F.
    rewrite Forall_forall in F. apply F, Hl. }
  unfold well_formed in Hw. unfold enabled.
  destruct e as [t c v]. cbn [ie_type ie_code ie_value] in *.
  destruct t, c; try discriminate; cbn; intuition.
Qed.

(** The release after the calibration of the scenario. *)
Lemma every_write_was_enabled_witness :
  enabled uinput_set_up (key BTN_LEFT false).
Proof.
  apply (every_write_was_enabled libm_ref
           (fair_world (calibrate corner1 corner2 ++
                        [sample_of corner2 release idle idle]))).
  vm_compute. tauto.
Defined.

(** X18.  A return value other than 0 is announced: when uinput was
    opened and [main] returns [code], either [code] is 0, or it is one of
    -1 ... -8 and the last line printed names a call that did not return
    [XR_SUCCESS]: xrCreateInstance for -1, a call of the set-up made with
    that [returnCode] for -2 ... -7, a call of the loop for -8. *)
Theorem nonzero_return_is_announced :
  forall (libm : Libm) (w : world) (code : Z),
    uinput_fd w <> -1 ->
    returned (main w) = Some code ->
    code = 0 \/
    (code = -1 /\ stdout (main w) = [InstanceFailed (instance_res w)] /\
     instance_res w <> XR_SUCCESS) \/
    (exists c r, stdout (main w) = [SetupFailed c r] /\ r <> XR_SUCCESS /\
                 (In (code, c) set_up_calls \/
                  (code = -7 /\ (c = xrPollEvent \/ c = xrBeginSession)))) \/
    (code = -8 /\
     exists lines c r, stdout (main w) = lines ++ [InLoop (CallFailed c r)]).
Proof.
  intros libm w code Hfd. unfold main. apply Z.eqb_neq in Hfd. rewrite Hfd.
  destruct (is_success (instance_res w)) eqn:Ei; cbn [negb].
  2:{ cbn. intros [= <-]. right. left. repeat split.
      intros H. rewrite H in Ei. discriminate. }
  unfold after_instance.
  destruct (first_failure (setup_res w) set_up_calls) as [[k c]|] eqn:Ef.
  { cbn. intros [= <-]. right. right. left.
    destruct (first_failure_some _ _ _ _ Ef) as [Hin Hne].
    exists c, (setup_res w c). auto. }
  destruct (wait_for_session (polled w)) eqn:Ew; cbn [returned stdout];
    try discriminate.
  2:{ intros [= <-]. right. right. left. exists xrPollEvent, res.
      split; [reflexivity|]. split; [apply (wait_for_session_failed _ _ Ew)|].
      right. auto. }
  destruct (is_success (setup_res w xrBeginSession)) eqn:Eb; cbn [negb].
  2:{ cbn. intros [= <-]. right. right. left.
      exists xrBeginSession, (setup_res w xrBeginSession).
      split; [reflexivity|]. split; [|right; auto].
      intros H. rewrite H in Eb. discriminate. }
  destruct (loop_ends (loop_samples w) (initial (uninitialised w))) eqn:El;
    cbn [returned stdout]; try discriminate; intros [= <-]; [now left|].
  right. right. right. split; [reflexivity|].
  destruct (jumped_prints_the_call _ _ El) as (lines & c & r & E).
  exists (Started :: map InLoop lines), c, r.
  rewrite E, map_app. reflexivity.
Qed.

(** No runtime. *)
Lemma nonzero_return_is_announced_witness :
  stdout (main (libm := libm_ref) no_runtime) = [InstanceFailed (XR_OTHER (-51))].
Proof.
  destruct (nonzero_return_is_announced libm_ref no_runtime (-1))
    as [H|[(_ & H & _)|[(c & r & H & _)|(_ & l & c & r & H)]]].
  - vm_compute. discriminate.
  - reflexivity.
  - discriminate.
  - exact H.
  - vm_compute in H. discriminate.
  - vm_compute in H. destruct l as [|? [|? ?]]; discriminate.
Defined.


(** ** The positions written and the axes declared *)

(** The mantissa after [shr_1], and after [n] of them. *)
Lemma shr_1_m (mrs : shr_record) :
  0 <= shr_m mrs -> shr_m (shr_1 mrs) = shr_m mrs / 2.
Proof.
  destruct mrs as [m r s]. cbn [shr_m]. intros Hm.
  destruct m as [|p|p]; [reflexivity| |lia].
  destruct p as [p|p|]; cbn [shr_1 shr_m].
  - rewrite Pos2Z.inj_xI. apply Z.div_unique with (r := 1); lia.
  - rewrite Pos2Z.inj_xO. apply Z.div_unique with (r := 0); lia.
  - reflexivity.
Qed.

Lemma iter_pos_shr_m (p : positive) :
  forall mrs, 0 <= shr_m mrs ->
    shr_m (iter_pos shr_1 p mrs) = shr_m mrs / 2 ^ Zpos p.
Proof.
  induction p as [p IH|p IH|]; intros mrs Hm; cbn [iter_pos].
  - assert (H1 : 0 <= shr_m (shr_1 mrs))
      by (rewrite shr_1_m by assumption; apply Z.div_pos; lia).
    assert (H2 : 0 <= shr_m (iter_pos shr_1 p (shr_1 mrs)))
      by (rewrite IH by assumption; apply Z.div_pos; lia).
    rewrite IH, IH, shr_1_m by assumption.
    assert (E : 2 ^ Z.pos p~1 = 2 * (2 ^ Z.pos p * 2 ^ Z.pos p)).
    { assert (Ep : Z.pos p~1 = 1 + Z.pos p + Z.pos p) by lia.
      rewrite Ep, !Z.pow_add_r by lia. lia. }
    rewrite E, !Z.div_div by lia. reflexivity.
  - assert (H2 : 0 <= shr_m (iter_pos shr_1 p mrs))
      by (rewrite IH by assumption; apply Z.div_pos; lia).
    rewrite IH, IH by assumption.
    assert (E : 2 ^ Z.pos p~0 = 2 ^ Z.pos p * 2 ^ Z.pos p).
    { assert (Ep : Z.pos p~0 = Z.pos p + Z.pos p) by lia.
      rewrite Ep, !Z.pow_add_r by lia. reflexivity. }
    rewrite E, !Z.div_div by lia. reflexivity.
  - rewrite shr_1_m by assumption. reflexivity.
Qed.

Lemma digits2_pos_size (p : positive) : digits2_pos p = Pos.size p.
Proof. induction p; cbn; congruence. Qed.

Lemma digits2_lower (p : positive) : 2 ^ (Zpos (digits2_pos p) - 1) <= Zpos p.
Proof.
  rewrite digits2_pos_size.
  pose proof (Pos.size_le p) as H.
  assert (H' : 2 ^ Zpos (Pos.size p) <= 2 * Zpos p).
  { change 2 with (Zpos 2) at 1. rewrite <- Pos2Z.inj_pow. 
    change (2 * Zpos p) with (Zpos (p~0)). apply Pos2Z.pos_le_pos, H. }
  replace (Zpos (Pos.size p)) with (1 + (Zpos (Pos.size p) - 1)) in H' by lia.
  rewrite Z.pow_add_r in H' by lia. lia.
Qed.

Lemma digits2_upper (p : positive) : Zpos p < 2 ^ Zpos (digits2_pos p).
Proof.
  rewrite digits2_pos_size.
  change 2 with (Zpos 2). rewrite <- Pos2Z.inj_pow.
  apply Pos2Z.pos_lt_pos, Pos.size_gt.
Qed.

(** [shr_fexp] on a mantissa under [W * 2^(-e)], with [W] under 2^11 and
    the exponent at most -13: the mantissa stays under the bound for the
    new exponent, which is at most -13 again. *)
Lemma shr_fexp_below (W m e : Z) (l : location) :
  0 < W < 2 ^ 11 -> 0 <= m -> e <= -13 -> m <= W * 2 ^ (- e) ->
  let '(mrs, e') := shr_fexp F32.prec F32.emax m e l in
  0 <= shr_m mrs /\ e' <= -13 /\
  shr_m mrs <= W * 2 ^ (- e') /\
  (m < W * 2 ^ (- e) -> shr_m mrs < W * 2 ^ (- e')).
Proof.
  intros HW Hm He Hb. unfold shr_fexp, shr.
  assert (Hr : shr_m (shr_record_of_loc m l) = m)
    by (destruct l as [|[ | | ]]; reflexivity).
  destruct (fexp F32.prec F32.emax (Zdigits2 m + e) - e) as [|p|p] eqn:En;
    try (rewrite Hr; auto).
  assert (Hd : Zdigits2 m + e <= 11).
  { destruct m as [|q|q]; cbn [Zdigits2]; [lia| |lia].
    pose proof (digits2_lower q) as Hl.
    assert (Hp : 0 < 2 ^ (- e)) by (apply Z.pow_pos_nonneg; lia).
    assert (Hlt : 2 ^ (Z.pos (digits2_pos q) - 1) < 2 ^ (11 - e)).
    { replace (11 - e) with (11 + - e) by lia. rewrite Z.pow_add_r by lia. nia. }
    apply Z.pow_lt_mono_r_iff in Hlt; lia. }
  assert (Hf : fexp F32.prec F32.emax (Zdigits2 m + e) <= -13)
    by (unfold fexp, emin, F32.prec, F32.emax; lia).
  rewrite iter_pos_shr_m, Hr by (rewrite Hr; assumption).
  assert (Hp : 0 < 2 ^ Z.pos p) by (apply Z.pow_pos_nonneg; lia).
  assert (Hq : 0 < 2 ^ (- (e + Z.pos p))) by (apply Z.pow_pos_nonneg; lia).
  assert (Hs : 2 ^ (- e) = 2 ^ (- (e + Z.pos p)) * 2 ^ Z.pos p).
  { rewrite <- Z.pow_add_r by lia. f_equal. lia. }
  split; [apply Z.div_pos; lia|]. split; [lia|]. split.
  - apply Z.div_le_upper_bound; [lia|]. rewrite Hs in Hb. lia.
  - intros Hlt. apply Z.div_lt_upper_bound; [lia|]. rewrite Hs in Hlt. lia.
Qed.

Lemma round_nearest_even_le (m : Z) (l : location) :
  m <= round_nearest_even m l <= m + 1.
Proof.
  destruct l as [|[ | | ]]; cbn [round_nearest_even]; try lia.
  destruct (Z.even m); lia.
Qed.

(** The product of a binary32 value under 1 and a width under 2^11 is at
    most the width once cast to [int], and not negative. *)
Lemma scaled_below (W : Z) (M : positive) (E : Z) :
  0 < W < 2 ^ 11 -> E <= -13 -> Zpos M < W * 2 ^ (- E) ->
  0 <= F32.to_int (binary_round_aux F32.prec F32.emax false (Zpos M) E loc_Exact) <= W.
Proof.
  intros HW HE HM. unfold binary_round_aux.
  pose proof (shr_fexp_below W (Zpos M) E loc_Exact HW ltac:(lia) HE ltac:(lia)) as H1.
  destruct (shr_fexp F32.prec F32.emax (Zpos M) E loc_Exact) as [mrs1 e1].
  destruct H1 as (Hm1 & He1 & _ & Hlt1). specialize (Hlt1 HM).
  pose proof (round_nearest_even_le (shr_m mrs1) (loc_of_shr_record mrs1)) as Hr.
  set (m1 := round_nearest_even (shr_m mrs1) (loc_of_shr_record mrs1)) in *.
  pose proof (shr_fexp_below W m1 e1 loc_Exact HW ltac:(lia) He1 ltac:(lia)) as H2.
  destruct (shr_fexp F32.prec F32.emax m1 e1 loc_Exact) as [mrs2 e2].
  destruct H2 as (Hm2 & He2 & Hle2 & _).
  destruct (shr_m mrs2) as [|m2|m2]; [cbn; lia| |lia].
  assert (Hfin : (e2 <=? F32.emax - F32.prec) = true)
    by (apply Z.leb_le; unfold F32.emax, F32.prec; lia).
  rewrite Hfin. unfold F32.to_int, SFtrunc. cbn [cond_Zopp].
  rewrite shiftl_neg_div by lia.
  assert (Hp : 0 < 2 ^ (- e2)) by (apply Z.pow_pos_nonneg; lia).
  assert (Hk : 0 <= Z.pos m2 / 2 ^ (- e2) <= W).
  { split; [apply Z.div_pos; lia|].
    apply Z.div_le_upper_bound; [lia|]. lia. }
  assert (Hi : (INT_MIN <=? Z.pos m2 / 2 ^ (- e2)) &&
               (Z.pos m2 / 2 ^ (- e2) <=? INT_MAX) = true).
  { apply andb_true_iff. split; apply Z.leb_le; unfold INT_MIN, INT_MAX.
    - lia.
    - assert (2 ^ 11 < 2 ^ 31 - 1) by reflexivity. lia. }
  rewrite Hi. exact Hk.
Qed.

(** The binary32 values of the unit interval: a zero, 1, or a canonical
    mantissa under 2^24 with an exponent of -24 at most. *)
Lemma in_unit_cases (u : float) :
  F32.valid u = true -> in_unit u = true ->
  (exists s, u = S754_zero s) \/ u = f1 \/
  exists m e, u = S754_finite false m e /\ e <= -24 /\ Zpos m < 2 ^ (- e).
Proof.
  intros Hv Hu. apply andb_true_iff in Hu as [H0 H1].
  destruct u as [s|s| |s m e];
    [left; exists s; reflexivity|destruct s; discriminate|discriminate|].
  right. destruct s; [discriminate|].
  {
    unfold F32.valid, valid_binary, bounded in Hv.
    apply andb_true_iff in Hv as [Hc _].
    unfold canonical_mantissa in Hc. apply Z.eqb_eq in Hc.
    unfold fexp, emin, F32.prec, F32.emax in Hc.
    pose proof (digits2_lower m) as Hl. pose proof (digits2_upper m) as Hh.
    unfold F32.leb, SFleb, f1 in H1. cbn [SFcompare] in H1.
    destruct (Z.compare_spec e (-23)) as [Ee|Ee|Ee]; try discriminate.
    + left. subst e.
      assert (Hd : Z.pos (digits2_pos m) = 24) by lia.
      rewrite Hd in Hl. change (2 ^ (24 - 1)) with 8388608 in Hl.
      change (Pos.compare_cont Eq m 8388608) with (m ?= 8388608)%positive in H1.
      destruct (Pos.compare_spec m 8388608) as [Em|Em|Em]; try discriminate.
      * subst m. reflexivity.
      * exfalso. lia.
    + right. exists m, e. split; [reflexivity|]. split; [lia|].
      assert (Hle : Z.pos (digits2_pos m) <= - e) by lia.
      apply Z.lt_le_trans with (1 := Hh).
      apply Z.pow_le_mono_r; lia.
  }
Qed.

Lemma scaled_in_unit (W : Z) (Wm : positive) (u : float) :
  0 < W < 2 ^ 11 ->
  F32.of_int W = S754_finite false Wm (-13) ->
  Zpos Wm = W * 2 ^ 13 ->
  F32.to_int (F32.mul f1 (F32.of_int W)) = W ->
  F32.valid u = true -> in_unit u = true ->
  0 <= F32.to_int (F32.mul u (F32.of_int W)) <= W.
Proof.
  intros HW Hof HWm Hone Hv Hu.
  destruct (in_unit_cases u Hv Hu) as [[s ->]|[->|(m & e & -> & He & Hm)]].
  - rewrite Hof. cbn. lia.
  - rewrite Hone. lia.
  - rewrite Hof. unfold F32.mul. cbn [SFmul xorb].
    apply scaled_below; [assumption|lia|].
    rewrite Pos2Z.inj_mul, HWm.
    replace (- (e + -13)) with (- e + 13) by lia.
    rewrite Z.pow_add_r by lia.
    assert (0 < 2 ^ 13) by reflexivity. nia.
Qed.

(** X19.  While the pointer is in the unit square, the positions written
    are on the axes as they were declared at set-up: the ABS_X value lies
    between the minimum and the maximum given to UI_ABS_SETUP for ABS_X
    (0 and 1920), the ABS_Y value between those for ABS_Y (0 and 1080). *)
Theorem unit_pointer_is_written_within_the_axes :
  forall (u v : float) (e : input_event),
    F32.valid u = true -> F32.valid v = true ->
    in_unit u = true -> in_unit v = true ->
    In e (abs_events (u, v)) ->
    exists lo hi,
      In (UI_ABS_SETUP (ie_code e) lo hi) uinput_set_up /\
      lo <= ie_value e <= hi.
Proof.
  intros u v e Hvu Hvv Hu Hv [<-|[<-|[]]]; cbn [ie_code ie_value fst snd].
  - exists 0, SCREEN_WIDTH. split; [cbn; tauto|].
    apply (scaled_in_unit SCREEN_WIDTH 15728640); try assumption; try reflexivity.
    unfold SCREEN_WIDTH. lia.
  - exists 0, SCREEN_HEIGHT. split; [cbn; tauto|].
    apply (scaled_in_unit SCREEN_HEIGHT 8847360); try assumption; try reflexivity.
    unfold SCREEN_HEIGHT. lia.
Qed.

(** The centre of the screen. *)
Lemma unit_pointer_is_written_within_the_axes_witness :
  exists lo hi,
    In (UI_ABS_SETUP ABS_X lo hi) uinput_set_up /\ lo <= 960 <= hi.
Proof.
  apply (unit_pointer_is_written_within_the_axes f_half f_half
           {| ie_type := EV_ABS; ie_code := ABS_X; ie_value := 960 |});
    try reflexivity.
  left. reflexivity.
Defined.


(** ** The four-corner revision *)

Lemma quad_tick_invariant (s s' : Quad.loop_state) (smp : sample) :
  Quad.next (Quad.tick s smp) = Some s' ->
  (Quad.mouseX s = f0 /\ Quad.mouseY s = f0) ->
  (Quad.state s = PLAYING -> Quad.flat s) ->
  (Quad.mouseX s' = f0 /\ Quad.mouseY s' = f0) /\
  (Quad.state s' = PLAYING -> Quad.flat s') /\
  forallb (fun m => negb (Quad.is_pointer_line m)) (Quad.printed (Quad.tick s smp)) = true.
Proof.
  intros E [Hx Hy] Hflat. revert E. unfold Quad.tick.
  destruct (sync_res smp); cbn [Quad.stay Quad.fail_call Quad.next Quad.printed];
    try discriminate;
    try (intros [= <-]; cbn; auto; fail).
  destruct (negb (is_success (time_res smp))); [discriminate|].
  destruct (negb (is_success (locate_res smp))); [discriminate|].
  destruct (negb (is_success (fire_res smp))); [discriminate|].
  destruct (negb (is_success (pedal_res smp))); [discriminate|].
  destruct (negb (is_success (pause_res smp))); [discriminate|].
  unfold Quad.dispatch. destruct (Quad.state s) eqn:Es.
  - unfold Quad.record_topleft. destruct (pressed_now _); cbn.
    + intros [= <-]. cbn. split; [auto|]. split; [discriminate|reflexivity].
    + intros [= <-]. rewrite Es. split; [auto|]. split; [discriminate|reflexivity].
  - unfold Quad.record_bottomright. destruct (pressed_now _); cbn.
    + intros [= <-]. unfold Quad.flat. cbn. auto.
    + intros [= <-]. rewrite Es. split; [auto|]. split; [discriminate|reflexivity].
  - unfold Quad.playing, Quad.pose_to_pointer. rewrite Hx, Hy.
    change (differs (f0, f0) (f0, f0)) with false. cbn.
    intros [= <-]. cbn. rewrite Es. split; [auto|]. split; [intros _; apply Hflat; reflexivity|].
    rewrite app_nil_r. unfold key_line.
    destruct (changedSinceLastSync (fireState smp)),
             (changedSinceLastSync (pedalState smp)),
             (changedSinceLastSync (pauseState smp)); reflexivity.
Qed.

Lemma quad_failed_tick_prints_no_pointer (s : Quad.loop_state) (smp : sample) :
  Quad.next (Quad.tick s smp) = None ->
  forallb (fun m => negb (Quad.is_pointer_line m)) (Quad.printed (Quad.tick s smp)) = true.
Proof.
  unfold Quad.tick.
  destruct (sync_res smp); cbn [Quad.stay Quad.fail_call Quad.next Quad.printed];
    try discriminate; try reflexivity.
  destruct (negb (is_success (time_res smp))); [reflexivity|].
  destruct (negb (is_success (locate_res smp))); [reflexivity|].
  destruct (negb (is_success (fire_res smp))); [reflexivity|].
  destruct (negb (is_success (pedal_res smp))); [reflexivity|].
  destruct (negb (is_success (pause_res smp))); [reflexivity|].
  unfold Quad.dispatch, Quad.record_topleft, Quad.record_bottomright, Quad.playing.
  destruct (Quad.state s); try (destruct (pressed_now _); discriminate).
  destruct (Quad.pose_to_pointer _ _ _ _ _ _). discriminate.
Qed.

Lemma quad_invariant (samples : list sample) :
  forall s,
    (Quad.mouseX s = f0 /\ Quad.mouseY s = f0) ->
    (Quad.state s = PLAYING -> Quad.flat s) ->
    (forall t, In t (Quad.loop_trace samples s) ->
       (Quad.mouseX t = f0 /\ Quad.mouseY t = f0) /\
       (Quad.state t = PLAYING -> Quad.flat t)) /\
    forallb (fun m => negb (Quad.is_pointer_line m)) (Quad.loop_printed samples s) = true.
Proof.
  induction samples as [|smp rest IH]; intros s Hm Hf.
  - cbn. split; [|destruct (Quad.run s =? 0); reflexivity].
    intros t Ht. destruct (Quad.run s =? 0); cbn in Ht;
      destruct Ht as [<-|[]]; auto.
  - cbn [Quad.loop_trace Quad.loop_printed].
    destruct (Quad.run s =? 0).
    { split; [|reflexivity]. intros t [<-|[]]. auto. }
    destruct (Quad.next (Quad.tick s smp)) as [s'|] eqn:E.
    + destruct (quad_tick_invariant s s' smp E Hm Hf) as (Hm' & Hf' & Hp).
      destruct (IH s' Hm' Hf') as [Ht Hl]. split.
      * intros t [<-|Hin]; [auto|apply Ht, Hin].
      * rewrite forallb_app, Hp, Hl. reflexivity.
    + split.
      * intros t [<-|[]]. auto.
      * rewrite app_nil_r. apply quad_failed_tick_prints_no_pointer, E.
Qed.

(** X20.  In the four-corner revision, once both corners are captured the
    two other corners are made of them - the top right has the x and z of
    the bottom right and the y of the top left, the bottom left the x and
    z of the top left and the y of the bottom right - and stay so in every
    later state of the loop, whatever the runtime delivers. *)
Theorem playing_screen_is_vertically_flat :
  forall (samples : list sample)
         (g : XrVector3f * XrVector3f * XrVector3f * XrVector3f)
         (s : Quad.loop_state),
    In s (Quad.loop_trace samples (Quad.initial g)) ->
    Quad.state s = PLAYING ->
    Quad.topright s = {| v_x := v_x (Quad.bottomright s);
                         v_y := v_y (Quad.topleft s);
                         v_z := v_z (Quad.bottomright s) |} /\
    Quad.bottomleft s = {| v_x := v_x (Quad.topleft s);
                           v_y := v_y (Quad.bottomright s);
                           v_z := v_z (Quad.topleft s) |}.
Proof.
  intros samples g s Hin Hp.
  destruct (quad_invariant samples (Quad.initial g)) as [H _].
  - destruct g as [[[? ?] ?] ?]. cbn. auto.
  - destruct g as [[[? ?] ?] ?]. cbn. discriminate.
  - destruct (H s Hin) as [_ Hf]. apply Hf, Hp.
Qed.

(** The calibration of the scenario, in this revision. *)
Lemma playing_screen_is_vertically_flat_witness :
  let g := (position corner1, position corner1, position corner1, position corner1) in
  let s := last (Quad.loop_trace (calibrate corner1 corner2) (Quad.initial g))
                (Quad.initial g) in
  Quad.state s = PLAYING /\
  Quad.topright s = {| v_x := v_x (position corner2);
                       v_y := v_y (position corner1);
                       v_z := v_z (position corner2) |}.
Proof.
  intros g s.
  assert (Hp : Quad.state s = PLAYING) by reflexivity.
  split; [exact Hp|].
  destruct (playing_screen_is_vertically_flat (calibrate corner1 corner2) g s)
    as [H _].
  - vm_compute. tauto.
  - exact Hp.
  - exact H.
Defined.

(** X21.  In the four-corner revision the loop never prints a pointer
    line and the pointer stays at (0, 0): [pose_to_pointer] compares the
    constant (0, 0) with a pointer that starts there, so it returns 0 at
    every call the loop makes. *)
Theorem stub_never_moves_the_pointer :
  forall (samples : list sample)
         (g : XrVector3f * XrVector3f * XrVector3f * XrVector3f),
    (forall m, In m (Quad.loop_printed samples (Quad.initial g)) ->
               Quad.is_pointer_line m = false) /\
    (forall s, In s (Quad.loop_trace samples (Quad.initial g)) ->
               Quad.mouseX s = f0 /\ Quad.mouseY s = f0).
Proof.
  intros samples g.
  destruct (quad_invariant samples (Quad.initial g)) as [H Hl].
  - destruct g as [[[? ?] ?] ?]. cbn. auto.
  - destruct g as [[[? ?] ?] ?]. cbn. discriminate.
  - split.
    + intros m Hin. rewrite forallb_forall in Hl.
      apply Hl in Hin. destruct (Quad.is_pointer_line m); [discriminate|reflexivity].
    + intros s Hin. apply (H s Hin).
Qed.


(** X22.  In the four-corner revision, what [pose_to_pointer] computes as
    the direction of the ray is the position of the pose turned by its
    orientation: with the identity orientation and a finite position it
    is the position itself, component by component. *)
Theorem direction_of_identity_is_the_position :
  forall (p : XrVector3f),
    is_finite (v_x p) = true -> is_finite (v_y p) = true ->
    is_finite (v_z p) = true ->
    let d := Quad.direction {| orientation := identity; position := p |} in
    F32.eqb (v_x d) (v_x p) = true /\
    F32.eqb (v_y d) (v_y p) = true /\
    F32.eqb (v_z d) (v_z p) = true.
Proof.
  intros [x y z] Hx Hy Hz. cbn [v_x v_y v_z] in *.
  unfold Quad.direction, identity.
  cbn [orientation position q_x q_y q_z q_w v_x v_y v_z].
  destruct x as [sx|sx| |sx mx ex], y as [sy|sy| |sy my ey],
           z as [sz|sz| |sz mz ez]; try discriminate;
    destruct sx, sy, sz; cbn -[Pos.compare_cont Z.compare];
    rewrite ?Z.compare_refl, ?Pos.compare_cont_refl; auto.
Qed.

(** The first corner of the scenario. *)
Lemma direction_of_identity_is_the_position_witness :
  F32.eqb (v_z (Quad.direction {| orientation := identity;
                                  position := position corner1 |}))
          (v_z (position corner1)) = true.
Proof.
  apply (direction_of_identity_is_the_position (position corner1));
    reflexivity.
Defined.


(** ** The polling revision *)

Lemma polling_tick_next (run : Z) (smp : Polling.sample) :
  Polling.next (Polling.tick run smp)
  = match Polling.sync_res smp with
    | XR_SESSION_LOSS_PENDING => Some 0
    | _ => if Polling.passes smp then Some run else None
    end.
Proof.
  unfold Polling.tick, Polling.passes, Polling.succeeded.
  destruct (Polling.sync_res smp); cbn; try reflexivity.
  destruct (is_success (Polling.aim_res smp)),
           (is_success (Polling.fire_res smp)),
           (is_success (Polling.pedal_res smp)),
           (is_success (Polling.pause_res smp)); reflexivity.
Qed.

Lemma polling_loop_stopped (samples : list Polling.sample) :
  Polling.loop samples 0 = Some 0.
Proof. destruct samples; reflexivity. Qed.

(** X23.  In the polling revision the loop is left with 0 exactly when a
    sample answers [XR_SESSION_LOSS_PENDING] after samples that all let
    the loop go on, and with -5 exactly when the first sample that does
    not let it go on is another failure; no button state ends it. *)
Theorem polling_loop_ends_on_session_loss_only :
  forall (samples : list Polling.sample) (code : Z),
    Polling.loop samples 1 = Some code <->
    exists pre smp post,
      samples = pre ++ smp :: post /\
      forallb Polling.passes pre = true /\
      Polling.passes smp = false /\
      code = match Polling.sync_res smp with
             | XR_SESSION_LOSS_PENDING => 0
             | _ => -5
             end.
Proof.
  intros samples code. induction samples as [|smp rest IH].
  - cbn. split; [discriminate|].
    intros (pre & smp & post & E & _). destruct pre; discriminate.
  - cbn [Polling.loop]. change (1 =? 0) with false. cbv iota.
    rewrite polling_tick_next.
    destruct (Polling.passes smp) eqn:Ep.
    + assert (Hs : Polling.sync_res smp <> XR_SESSION_LOSS_PENDING).
      { intros H. unfold Polling.passes in Ep. rewrite H in Ep. discriminate. }
      assert (En : match Polling.sync_res smp with
                   | XR_SESSION_LOSS_PENDING => Some 0
                   | _ => Some 1
                   end = Some 1)
        by (destruct (Polling.sync_res smp); congruence).
      rewrite En, IH. split.
      * intros (pre & smp' & post & -> & Hpre & Hrest).
        exists (smp :: pre), smp', post. cbn. rewrite Ep, Hpre. auto.
      * intros (pre & smp' & post & E & Hpre & Hno & Hc).
        destruct pre as [|p pre]; cbn in E; injection E as <- E.
        -- congruence.
        -- cbn in Hpre. apply andb_true_iff in Hpre as [_ Hpre].
           exists pre, smp', post. auto.
    + split.
      * intros H. exists [], smp, rest. repeat split; auto.
        destruct (Polling.sync_res smp);
          rewrite ?polling_loop_stopped in H; congruence.
      * intros (pre & smp' & post & E & Hpre & Hno & Hc).
        destruct pre as [|p pre]; cbn in E; injection E as <- E.
        -- subst code. destruct (Polling.sync_res smp);
             rewrite ?polling_loop_stopped; reflexivity.
        -- cbn in Hpre. apply andb_true_iff in Hpre as [Hp _]. congruence.
Qed.
